(** * The chat widget of src/App.tsx: conversation state and session lifecycle

    A shallow embedding of the stateful part of [App] (the [useState] cells
    [messages], [isLoading], [error], the ref [chatSessionRef], the effect
    [initializeChat] and the handler [handleSendMessage]) and of the submit
    handler of [ChatInput], followed by the properties of the specification
    that concern them.

    Of what [App] and [ChatInput] render, the conditions under which the
    thinking indicator and the error panel appear and the input and its
    button are disabled are modelled; the markup, the class names and the
    effects on the DOM (scrolling, the height of the text area) are not.

    A handler closes over the constants of the render that created it:
    [handleSendMessage] tests the [isLoading] of that render, not the cell
    as it is when the handler runs. The component is therefore modelled
    with the state it holds and the state its last render saw, and its
    renders are events like the calls and the replies. *)

From Stdlib Require Import List Bool ZArith NArith Lia String Ascii.
From Stdlib Require Import DecimalString DecimalZ.
Import ListNotations.

Set Implicit Arguments.
Open Scope Z_scope.

(* ================================================================== *)
(** ** JavaScript strings *)

(** A JavaScript string is a sequence of UTF-16 code units. *)
Definition code_unit := N.
Definition jsstring := list code_unit.

(** A string literal of the source that holds only ASCII characters. *)
Definition js (s : string) : jsstring :=
  map N_of_ascii (list_ascii_of_string s).

(** The escape [\n] of a template literal. *)
Definition LF : code_unit := 10%N.

(** ECMAScript [WhiteSpace] and [LineTerminator] code points, the ones
    [String.prototype.trim] strips. All of them are in the basic plane, so
    the test is exact on code units. *)
Definition isWhiteSpace (c : code_unit) : bool :=
  (   (c =? 0x0009) || (c =? 0x000A) || (c =? 0x000B) || (c =? 0x000C)
   || (c =? 0x000D) || (c =? 0x0020) || (c =? 0x00A0) || (c =? 0x1680)
   || ((0x2000 <=? c) && (c <=? 0x200A))
   || (c =? 0x2028) || (c =? 0x2029) || (c =? 0x202F) || (c =? 0x205F)
   || (c =? 0x3000) || (c =? 0xFEFF))%N.

Fixpoint trimStart (s : jsstring) : jsstring :=
  match s with
  | c :: rest => if isWhiteSpace c then trimStart rest else s
  | [] => []
  end.

Definition trimEnd (s : jsstring) : jsstring :=
  rev (trimStart (rev s)).

(** [String.prototype.trim]. *)
Definition trim (s : jsstring) : jsstring :=
  trimEnd (trimStart s).

(** Truthiness of a string value: only the empty string is falsy. *)
Definition truthy (s : jsstring) : bool :=
  match s with [] => false | _ :: _ => true end.

(** Truthiness of a value of type [string | undefined]. *)
Definition truthy_opt (v : option jsstring) : bool :=
  match v with Some s => truthy s | None => false end.

(** A JavaScript number holding an integer, as [Date.now()] returns;
    in a template literal it is printed in decimal. *)
Definition Number_toString (n : Z) : jsstring :=
  js (NilEmpty.string_of_int (Z.to_int n)).

(** [hay] has [needle] as a substring. *)
Definition Contains (needle hay : jsstring) : Prop :=
  exists pre post, hay = pre ++ needle ++ post.

(* ================================================================== *)
(** ** types.ts: roles and messages *)

Inductive Role := USER | MODEL.

Record Message := {
  id : jsstring;
  role : Role;
  content : jsstring;
}.

(* ================================================================== *)
(** ** Collaborators: the SDK session, thrown values, the clock *)

(** The object [model.startChat] returns and [chatSessionRef.current]
    holds. The SDK is outside the repository; of the session the model
    keeps the configuration it was started with and [requests], the texts
    passed to its [sendMessage] so far, oldest first. *)
Record ChatSession := {
  modelName : jsstring;
  maxOutputTokens : Z;
  history : list Message;
  requests : list jsstring;
}.

(** A value caught by [catch (e)]: an instance of [Error] with its
    [message], a thrown string, or any other value. *)
Inductive Thrown :=
| ErrorInstance (message : jsstring)
| ThrownString (text : jsstring)
| ThrownOther.

(** How the awaited [sendMessage(...)] followed by [response.text()]
    ends: with a text, or by throwing. *)
Inductive Outcome :=
| Resolved (responseContent : jsstring)
| Rejected (e : Thrown).

(** How the construction inside the [try] of [initializeChat] ends. *)
Inductive InitOutcome :=
| Constructed
| ConstructionThrew (e : Thrown).

(* ================================================================== *)
(** ** App: component state *)

Record AppState := {
  messages : list Message;
  isLoading : bool;
  error : option jsstring;
  chatSessionRef : option ChatSession;
}.

(** [useState<Message[]>([])], [useState<boolean>(true)],
    [useState<string | null>(null)], [useRef<any | null>(null)]. *)
Definition initialState : AppState :=
  {| messages := []; isLoading := true; error := None;
     chatSessionRef := None |}.

Definition setMessages (f : list Message -> list Message) (s : AppState) :=
  {| messages := f (messages s); isLoading := isLoading s;
     error := error s; chatSessionRef := chatSessionRef s |}.

Definition setIsLoading (b : bool) (s : AppState) :=
  {| messages := messages s; isLoading := b;
     error := error s; chatSessionRef := chatSessionRef s |}.

Definition setError (e : option jsstring) (s : AppState) :=
  {| messages := messages s; isLoading := isLoading s;
     error := e; chatSessionRef := chatSessionRef s |}.

Definition setChatSession (c : option ChatSession) (s : AppState) :=
  {| messages := messages s; isLoading := isLoading s;
     error := error s; chatSessionRef := c |}.

(* ================================================================== *)
(** ** App: [initializeChat] *)

Definition apiKeyMissing : jsstring :=
  js "API Key is missing. Make sure you have set the VITE_GEMINI_API_KEY environment variable in your .env file or deployment service (like Netlify).".

Definition greetingText : jsstring :=
  js "Hello! I'm an assistant powered by Gemini. How can I help you today?".

Definition initialMessage : Message :=
  {| id := js "initial-message"; role := MODEL; content := greetingText |}.

(** [genAI.getGenerativeModel({ model: "gemini-1.5-flash" }).startChat(
    { history: [], generationConfig: { maxOutputTokens: 1000 } })]. *)
Definition startChat : ChatSession :=
  {| modelName := js "gemini-1.5-flash"; maxOutputTokens := 1000;
     history := []; requests := [] |}.

(** [e instanceof Error ? e.message : fallback]. *)
Definition errorMessageOf (fallback : jsstring) (e : Thrown) : jsstring :=
  match e with
  | ErrorInstance message => message
  | ThrownString _ | ThrownOther => fallback
  end.

Definition initFailedText (errorMessage : jsstring) : jsstring :=
  js "Failed to initialize the chatbot. Please check your API key and setup."
  ++ [LF; LF] ++ js "Error: " ++ errorMessage.

(** The body of [initializeChat]; it has no [await], so it runs to its end
    inside the mount effect. [API_KEY] is [import.meta.env.VITE_GEMINI_API_KEY]
    and [construction] tells whether the SDK calls of the [try] block throw. *)
Definition initializeChat (API_KEY : option jsstring)
    (construction : InitOutcome) (s : AppState) : AppState :=
  let s := setIsLoading true s in
  let s := setError None s in
  if negb (truthy_opt API_KEY) then
    let s := setError (Some apiKeyMissing) s in
    setIsLoading false s
  else
    let s :=
      match construction with
      | Constructed =>
          let s := setChatSession (Some startChat) s in
          setMessages (fun _ => [initialMessage]) s
      | ConstructionThrew e =>
          let errorMessage :=
            errorMessageOf
              (js "An unknown error occurred during initialization.") e in
          setError (Some (initFailedText errorMessage)) s
      end in
    setIsLoading false s.


(* ================================================================== *)
(** ** App: [handleSendMessage] *)

(** [chatSessionRef.current] is not null. *)
Definition hasSession (s : AppState) : bool :=
  match chatSessionRef s with Some _ => true | None => false end.

(** The session after [sendMessage(text)] was called on it. *)
Definition sendMessage (text : jsstring) (c : ChatSession) : ChatSession :=
  {| modelName := modelName c; maxOutputTokens := maxOutputTokens c;
     history := history c; requests := requests c ++ [text] |}.

(** What the handler does to the component before its [await], one entry
    per statement: the three state updates and the call of the session's
    [sendMessage]. *)
Inductive Effect :=
| SetIsLoading (b : bool)
| SetError (e : option jsstring)
| AppendMessage (msg : Message)
| SendMessage (text : jsstring).

(** [setIsLoading(b)], [setError(e)],
    [setMessages(prev => [...prev, msg])] and
    [chatSessionRef.current.sendMessage(text)]; the last one is only
    reached behind the guard, with a ref that is not null. *)
Definition perform (s : AppState) (e : Effect) : AppState :=
  match e with
  | SetIsLoading b => setIsLoading b s
  | SetError e => setError e s
  | AppendMessage msg => setMessages (fun prev => prev ++ [msg]) s
  | SendMessage text =>
      setChatSession (option_map (sendMessage text) (chatSessionRef s)) s
  end.

(** An [async] handler either returns at once or is suspended at its
    [await], the state updates before it already made. *)
Inductive Activation :=
| Returned (s : AppState)
| Suspended (s : AppState).

Definition stateOf (a : Activation) : AppState :=
  match a with Returned s | Suspended s => s end.

Definition userMessageOf (now : Z) (userInput : jsstring) : Message :=
  {| id := js "user-" ++ Number_toString now; role := USER;
     content := userInput |}.

(** The statements of [handleSendMessage] up to its [await], in program
    order, or nothing when the guard returns. [captured] is the constant
    [isLoading] of the render that created the handler (App.tsx:23); the
    ref is read when the handler runs. [now] is what [Date.now()] returns
    when the user message is built. *)
Definition handleSendMessage_effects (captured : bool) (now : Z)
    (userInput : jsstring) (s : AppState) : option (list Effect) :=
  if captured || negb (hasSession s) then None
  else
    let userMessage := userMessageOf now userInput in
    Some [SetIsLoading true; SetError None; AppendMessage userMessage;
          SendMessage userInput].

(** [handleSendMessage] up to its [await], on the component as it is when
    the handler runs. *)
Definition handleSendMessage_call (captured : bool) (now : Z)
    (userInput : jsstring) (s : AppState) : Activation :=
  match handleSendMessage_effects captured now userInput s with
  | None => Returned s
  | Some effects => Suspended (fold_left perform effects s)
  end.
Definition emptyResponseText : jsstring :=
  js "Received an empty response from the API.".

Definition apologyText : jsstring :=
  js "Sorry, I ran into a problem. Please try again.".

Definition errorContent (errorMessage : jsstring) : jsstring :=
  apologyText ++ [LF; LF] ++ js "*Error: " ++ errorMessage ++ js "*".

Definition modelMessageOf (now : Z) (responseContent : jsstring) : Message :=
  {| id := js "model-" ++ Number_toString now; role := MODEL;
     content := trim responseContent |}.

Definition errorResponseMessageOf (now : Z) (errorMessage : jsstring)
    : Message :=
  {| id := js "error-" ++ Number_toString now; role := MODEL;
     content := errorContent errorMessage |}.

(** The [catch (e)] block. *)
Definition handleSendMessage_catch (now : Z) (e : Thrown) (s : AppState)
    : AppState :=
  let errorMessage := errorMessageOf (js "An unknown error occurred.") e in
  let errorResponseMessage := errorResponseMessageOf now errorMessage in
  let s := setMessages (fun prev => prev ++ [errorResponseMessage]) s in
  setError (Some (js "API Error: " ++ errorMessage)) s.

(** [handleSendMessage] from its [await] on; [now] is what [Date.now()]
    returns when the reply or the error message is built. *)
Definition handleSendMessage_resume (now : Z) (r : Outcome) (s : AppState)
    : AppState :=
  let s :=
    match r with
    | Resolved responseContent =>
        if negb (truthy responseContent) then
          handleSendMessage_catch now (ErrorInstance emptyResponseText) s
        else
          let modelMessage := modelMessageOf now responseContent in
          setMessages (fun prev => prev ++ [modelMessage]) s
    | Rejected e => handleSendMessage_catch now e s
    end in
  setIsLoading false s.

(** One whole run of [handleSendMessage], from the call to the end of its
    [finally], when nothing else happens in between. *)
Definition handleSendMessage (captured : bool) (sentAt repliedAt : Z)
    (r : Outcome) (userInput : jsstring) (s : AppState) : AppState :=
  match handleSendMessage_call captured sentAt userInput s with
  | Returned s' => s'
  | Suspended s' => handleSendMessage_resume repliedAt r s'
  end.

(* ================================================================== *)
(** ** ChatInput: [handleSubmit] *)

(** What a submit of the form does with [input], the text in the box: the
    argument [onSendMessage] is called with, if it is called, and the next
    value of [input]. This is the [ChatInput] of App.tsx, the one [App]
    renders. *)
Definition handleSubmit (input : jsstring) : option jsstring * jsstring :=
  if truthy (trim input) then (Some (trim input), []) else (None, input).

(** [a === b] on two strings. *)
Fixpoint strictEq (a b : jsstring) : bool :=
  match a, b with
  | [], [] => true
  | x :: a', y :: b' => (x =? y)%N && strictEq a' b'
  | _, _ => false
  end.

(** What a handler of [ChatInput] leaves behind: whether it called
    [preventDefault] on the event, the argument [onSendMessage] was called
    with, if it was called, and the next value of [input]. *)
Record Handled := {
  defaultPrevented : bool;
  sent : option jsstring;
  nextInput : jsstring;
}.

Module Components.
(** The [ChatInput] of components/ChatInput.tsx, which [App] does not
    import; its guard also looks at the [isLoading] prop. *)
Definition handleSubmit (isLoading : bool) (input : jsstring)
    : option jsstring * jsstring :=
  if truthy (trim input) && negb isLoading
  then (Some (trim input), []) else (None, input).

(** [handleKeyDown] of components/ChatInput.tsx, on a key press with
    [e.key = key] and [e.shiftKey = shiftKey]: Enter without Shift is
    taken as a submit, any other key is left to the text area. *)
Definition handleKeyDown (key : jsstring) (shiftKey : bool)
    (isLoading : bool) (input : jsstring) : Handled :=
  if strictEq key (js "Enter") && negb shiftKey then
    let '(call, next) := handleSubmit isLoading input in
    {| defaultPrevented := true; sent := call; nextInput := next |}
  else
    {| defaultPrevented := false; sent := None; nextInput := input |}.

(** [disabled={isLoading || !input.trim()}] of the submit button; the
    button of the [ChatInput] of App.tsx has the same expression. *)
Definition buttonDisabled (isLoading : bool) (input : jsstring) : bool :=
  isLoading || negb (truthy (trim input)).
End Components.

(** The [isLoading] prop [App] passes to [ChatInput]. *)
Definition inputDisabled (s : AppState) : bool :=
  isLoading s || negb (hasSession s).

(* ================================================================== *)
(** ** The component over time *)

(** What can happen to the mounted component: the handler that the last
    render passed to [ChatInput] is called, directly or by a submit of the
    box, an awaited exchange settles, or React renders the component again.
    A call and a reply carry the reading [Date.now()] gives at that
    moment. *)
Inductive Event :=
| Send (userInput : jsstring) (now : Z)
| Submit (typed : jsstring) (now : Z)
| Settle (r : Outcome) (now : Z)
| Render.

(** The component: the state it holds, the state its last render saw (the
    constants its handlers closed over and the props it passed on), and the
    number of [handleSendMessage] activations suspended at their
    [await]. *)
Record Machine := {
  ui : AppState;
  rendered : AppState;
  pending : nat;
}.

Definition call (userInput : jsstring) (now : Z) (m : Machine) : Machine :=
  match handleSendMessage_call (isLoading (rendered m)) now userInput (ui m)
  with
  | Returned s => {| ui := s; rendered := rendered m; pending := pending m |}
  | Suspended s =>
      {| ui := s; rendered := rendered m; pending := S (pending m) |}
  end.

Definition dispatch (m : Machine) (e : Event) : Machine :=
  match e with
  | Send userInput now => call userInput now m
  | Submit typed now =>
      match fst (handleSubmit typed) with
      | Some text => call text now m
      | None => m
      end
  | Settle r now =>
      match pending m with
      | O => m
      | S n => {| ui := handleSendMessage_resume now r (ui m);
                  rendered := rendered m; pending := n |}
      end
  | Render => {| ui := ui m; rendered := ui m; pending := pending m |}
  end.

Definition run (m : Machine) (events : list Event) : Machine :=
  fold_left dispatch events m.

(** The component once its mount effect has run and the render that the
    effect's updates ask for is done. Before that render the handler is the
    one of the first render, which saw [isLoading] true and refuses every
    call. *)
Definition mounted (API_KEY : option jsstring) (construction : InitOutcome)
    : Machine :=
  let s := initializeChat API_KEY construction initialState in
  {| ui := s; rendered := s; pending := 0 |}.

(** The events through which a handler is called. *)
Definition isCall (e : Event) : bool :=
  match e with Send _ _ | Submit _ _ => true | Settle _ _ | Render => false end.

(** The last render saw the busy flag as it is now. *)
Definition fresh (m : Machine) : bool :=
  Bool.eqb (isLoading (rendered m)) (isLoading (ui m)).

(** The last render saw the ref as it is now, null or not. *)
Definition coherent (m : Machine) : bool :=
  Bool.eqb (hasSession (rendered m)) (hasSession (ui m)).

(** Every call of the run goes through a handler whose render saw the busy
    flag as it is at the call: React has rendered the component since the
    flag last changed. *)
Fixpoint upToDate (m : Machine) (events : list Event) : bool :=
  match events with
  | [] => true
  | e :: rest => (negb (isCall e) || fresh m) && upToDate (dispatch m e) rest
  end.

(** The outbound exchanges issued so far. *)
Definition outbound (s : AppState) : list jsstring :=
  match chatSessionRef s with Some c => requests c | None => [] end.

(** One successful exchange: the text sent, the non-empty reply, and the
    clock readings at the two moments. *)
Record Exchange := {
  text : jsstring;
  sentAt : Z;
  reply : jsstring;
  repliedAt : Z;
}.

(** The events of an exchange, without a render in between or with the
    render React does after the call and after the reply. *)
Definition eventsOf (rerender : bool) (x : Exchange) : list Event :=
  if rerender then
    [Send (text x) (sentAt x); Render;
     Settle (Resolved (reply x)) (repliedAt x); Render]
  else
    [Send (text x) (sentAt x); Settle (Resolved (reply x)) (repliedAt x)].

Definition turnsOf (x : Exchange) : list Message :=
  [userMessageOf (sentAt x) (text x); modelMessageOf (repliedAt x) (reply x)].

(* ================================================================== *)
(** ** The specification's vocabulary, read off the component state *)

Inductive Readiness := UNINITIALIZED | INITIALIZING | READY | INIT_FAILED.

(** The session is READY when the ref holds a session; without a session,
    the component is initializing while [isLoading] holds, has failed when
    an error is shown, and is otherwise not yet initialized. *)
Definition readiness (s : AppState) : Readiness :=
  match chatSessionRef s with
  | Some _ => READY
  | None =>
      if isLoading s then INITIALIZING
      else match error s with Some _ => INIT_FAILED | None => UNINITIALIZED end
  end.

(** A text that is empty or holds only white space. *)
Definition blank (s : jsstring) : bool := forallb isWhiteSpace s.

(** A decision procedure for [Contains]. *)
Fixpoint startsWith (needle hay : jsstring) : bool :=
  match needle, hay with
  | [], _ => true
  | _ :: _, [] => false
  | a :: needle', b :: hay' => (a =? b)%N && startsWith needle' hay'
  end.

Fixpoint includes (needle hay : jsstring) : bool :=
  startsWith needle hay
  || match hay with [] => false | _ :: hay' => includes needle hay' end.

(** The error text [handleSendMessage] reports for an outcome of the
    exchange, when the outcome is a failure: the thrown error's message, the
    stand-in for a thrown value that is no [Error], or the text of the error
    the handler itself throws on an empty response. *)
Definition failureText (r : Outcome) : option jsstring :=
  match r with
  | Rejected e => Some (errorMessageOf (js "An unknown error occurred.") e)
  | Resolved [] => Some emptyResponseText
  | Resolved (_ :: _) => None
  end.

(** The kinds of turn the handler builds, and the id it gives a turn of a
    kind built when the clock reads [t]: [`user-${Date.now()}`],
    [`model-${Date.now()}`], [`error-${Date.now()}`]. *)
Inductive Kind := UserTurn | ModelTurn | ErrorTurn.

Definition prefixOf (k : Kind) : jsstring :=
  match k with
  | UserTurn => js "user-"
  | ModelTurn => js "model-"
  | ErrorTurn => js "error-"
  end.

Definition idOf (stamp : Kind * Z) : jsstring :=
  prefixOf (fst stamp) ++ Number_toString (snd stamp).

(** The negation of the guard [isLoading || !chatSessionRef.current] of a
    handler whose render saw [captured], on the component [s]. *)
Definition passes (captured : bool) (s : AppState) : bool :=
  negb (captured || negb (hasSession s)).

(** The turn an event makes the component build, by its kind and the clock
    reading: a call that passes the guard builds a user turn, a reply that
    is awaited builds a model turn or an error turn. *)
Definition created (m : Machine) (e : Event) : option (Kind * Z) :=
  match e with
  | Send _ now =>
      if passes (isLoading (rendered m)) (ui m)
      then Some (UserTurn, now) else None
  | Submit typed now =>
      match fst (handleSubmit typed) with
      | Some _ =>
          if passes (isLoading (rendered m)) (ui m)
          then Some (UserTurn, now) else None
      | None => None
      end
  | Settle r now =>
      match pending m with
      | O => None
      | S _ =>
          match failureText r with
          | Some _ => Some (ErrorTurn, now)
          | None => Some (ModelTurn, now)
          end
      end
  | Render => None
  end.

(** The turns a run builds, oldest first. *)
Fixpoint createdBy (m : Machine) (events : list Event) : list (Kind * Z) :=
  match events with
  | [] => []
  | e :: rest =>
      match created m e with
      | Some stamp => stamp :: createdBy (dispatch m e) rest
      | None => createdBy (dispatch m e) rest
      end
  end.

(** A component whose own render gives a handler that passes the guard: it
    is idle and holds a session. *)
Definition accepting (s : AppState) : bool :=
  negb (inputDisabled s).

(** A credential and the idle component it gives once mounted, for the
    examples below. *)
Definition sampleKey : option jsstring := Some (js "key").

Definition readyMachine : Machine := mounted sampleKey Constructed.

Definition readyState : AppState := ui readyMachine.

(** The idle component after one exchange that failed with a timeout. *)
Definition failedOnceState : AppState :=
  handleSendMessage false 7 9 (Rejected (ErrorInstance (js "timeout")))
    (js "trigger failure") readyState.

(* ================================================================== *)
(** ** What [App] renders from its state *)

(** [message.role === Role.USER] of components/ChatMessage.tsx; the
    [ChatMessage] of App.tsx tests [message.role === Role.MODEL]. *)
Definition isUser (msg : Message) : bool :=
  match role msg with USER => true | MODEL => false end.

Definition isModel (msg : Message) : bool :=
  match role msg with MODEL => true | USER => false end.

(** [isLoading && messages.length > 0], the condition under which the
    thinking indicator is rendered. *)
Definition showThinking (s : AppState) : bool :=
  isLoading s && (0 <? List.length (messages s))%nat.

(** [error && (...)], the condition under which the error panel is
    rendered: [error] is neither null nor the empty string. *)
Definition showError (s : AppState) : bool :=
  truthy_opt (error s).

(** [disabled={isLoading || !input.trim()}] of the submit button of the
    [ChatInput] that [App] renders, with the prop [App] passes. *)
Definition buttonDisabled (s : AppState) (input : jsstring) : bool :=
  inputDisabled s || negb (truthy (trim input)).

(** The call of [onSendMessage] a handler of [ChatInput] asked for, run on
    the component. *)
Definition deliver (request : option jsstring) (now : Z) (m : Machine)
    : Machine :=
  match request with
  | Some text => call text now m
  | None => m
  end.

(* ================================================================== *)
(** ** Vocabulary of the further properties *)

(** A text that does not begin with white space. *)
Definition startsClean (s : jsstring) : bool :=
  match s with [] => true | c :: _ => negb (isWhiteSpace c) end.

(** A text that does not end with white space. *)
Definition endsClean (s : jsstring) : bool := startsClean (rev s).

(** The roles of [k] settled exchanges. *)
Fixpoint rounds (k : nat) : list Role :=
  match k with O => [] | S k' => USER :: MODEL :: rounds k' end.

(** What every state of the mounted component satisfies, however calls,
    replies and renders interleave: the busy flag is only set while a reply
    is awaited and with a session, a session comes with the greeting at the
    head of the conversation, the texts sent are the texts of the USER
    turns, an error is a non-empty text held by an idle component, and the
    ref is as the last render saw it. *)
Definition consistent (m : Machine) : Prop :=
  (isLoading (ui m) = true -> (1 <= pending m)%nat)
  /\ (isLoading (ui m) = true -> chatSessionRef (ui m) <> None)
  /\ (chatSessionRef (ui m) <> None ->
      exists rest, messages (ui m) = initialMessage :: rest)
  /\ outbound (ui m) = map content (filter isUser (messages (ui m)))
  /\ (forall b, error (ui m) = Some b ->
        truthy b = true /\ isLoading (ui m) = false)
  /\ coherent m = true.

(** What holds besides when every call went through an up-to-date handler:
    a reply is awaited exactly while the busy flag is set, and only one. *)
Definition orderly (m : Machine) : Prop :=
  pending m = (if isLoading (ui m) then 1 else 0)%nat.

(** What every state reached after a successful mount through up-to-date
    handlers satisfies besides: there is a session, the roles are the
    greeting, then USER and ASSISTANT in turn, with one more USER turn
    while a reply is awaited, and a banner error repeats the text of the
    error turn that ends the conversation. *)
Definition ready (m : Machine) : Prop :=
  consistent m
  /\ orderly m
  /\ chatSessionRef (ui m) <> None
  /\ (exists k, map role (messages (ui m))
               = MODEL :: rounds k
                 ++ (if isLoading (ui m) then [USER] else []))
  /\ (forall b, error (ui m) = Some b ->
        exists l t msg,
          messages (ui m) = l ++ [errorResponseMessageOf t msg]
          /\ b = js "API Error: " ++ msg).

(** The idle component after a mount whose construction threw. *)
Definition brokenMachine : Machine :=
  mounted sampleKey (ConstructionThrew (ErrorInstance (js "bad key"))).

(* ================================================================== *)
(** * Properties *)

(** ** Strings *)

Section Strings.

Lemma trimStart_blank (s : jsstring) :
  blank s = true -> trimStart s = [].
Proof.
  induction s as [|c s IH]; simpl; [reflexivity|].
  destruct (isWhiteSpace c); simpl; [exact IH | discriminate].
Qed.

Lemma trim_blank (s : jsstring) : blank s = true -> trim s = [].
Proof.
  intros H. unfold trim, trimEnd. now rewrite (trimStart_blank s H).
Qed.

Lemma trimStart_nil_blank (s : jsstring) :
  trimStart s = [] -> blank s = true.
Proof.
  induction s as [|c s IH]; simpl; [reflexivity|].
  destruct (isWhiteSpace c); simpl; [exact IH | discriminate].
Qed.

Lemma trimStart_suffix (s : jsstring) :
  exists pre, s = pre ++ trimStart s /\ blank pre = true.
Proof.
  induction s as [|c s [pre [E B]]]; simpl.
  - now exists [].
  - destruct (isWhiteSpace c) eqn:W.
    + exists (c :: pre). simpl. rewrite W, B. now rewrite <- E.
    + now exists [].
Qed.

Lemma blank_app (a b : jsstring) :
  blank (a ++ b) = blank a && blank b.
Proof. apply forallb_app. Qed.

Lemma blank_rev (s : jsstring) : blank (rev s) = blank s.
Proof.
  induction s as [|c s IH]; simpl; [reflexivity|].
  rewrite blank_app, IH. simpl. rewrite andb_true_r. apply andb_comm.
Qed.

(** [trim] yields the empty string exactly on blank texts. *)
Lemma trim_nil_iff (s : jsstring) : trim s = [] <-> blank s = true.
Proof.
  split; [|apply trim_blank].
  unfold trim, trimEnd. intros H.
  assert (R : trimStart (rev (trimStart s)) = []).
  { apply (f_equal (@rev _)) in H. now rewrite rev_involutive in H. }
  apply trimStart_nil_blank in R. rewrite blank_rev in R.
  destruct (trimStart_suffix s) as [pre [E B]].
  rewrite E, blank_app, B, R. reflexivity.
Qed.

Lemma truthy_trim (s : jsstring) : truthy (trim s) = negb (blank s).
Proof.
  destruct (blank s) eqn:B.
  - now rewrite (trim_blank s B).
  - destruct (trim s) eqn:T; [|reflexivity].
    apply trim_nil_iff in T. congruence.
Qed.

Lemma startsWith_prefix (needle hay : jsstring) :
  startsWith needle hay = true <-> exists post, hay = needle ++ post.
Proof.
  revert hay; induction needle as [|a needle IH]; intros hay; simpl.
  - split; [intros _; now exists hay | reflexivity].
  - destruct hay as [|b hay].
    + split; [discriminate | intros [post E]; discriminate].
    + rewrite andb_true_iff, N.eqb_eq, IH. split.
      * intros [-> [post ->]]. now exists post.
      * intros [post E]. injection E as -> ->. split; [reflexivity | now exists post].
Qed.

Lemma includes_Contains (needle hay : jsstring) :
  includes needle hay = true <-> Contains needle hay.
Proof.
  unfold Contains. induction hay as [|b hay IH]; simpl.
  - rewrite orb_false_r, startsWith_prefix. split.
    + intros [post E]. now exists [], post.
    + intros [pre [post E]]. destruct pre; simpl in E.
      * now exists post.
      * discriminate.
  - rewrite orb_true_iff, IH, startsWith_prefix. split.
    + intros [[post E] | [pre [post E]]].
      * now exists [], post.
      * exists (b :: pre), post. simpl. now rewrite E.
    + intros [pre [post E]]. destruct pre as [|c pre]; simpl in E.
      * left. now exists post.
      * right. injection E as _ E. now exists pre, post.
Qed.

Lemma Contains_middle (pre needle post : jsstring) :
  Contains needle (pre ++ needle ++ post).
Proof. now exists pre, post. Qed.

Lemma js_inj (a b : string) : js a = js b -> a = b.
Proof.
  unfold js. intros H.
  rewrite <- (string_of_list_ascii_of_string a),
          <- (string_of_list_ascii_of_string b).
  f_equal. revert H.
  generalize (list_ascii_of_string a) (list_ascii_of_string b).
  intros la; induction la as [|x la IH]; intros [|y lb]; simpl;
    try discriminate; [reflexivity|].
  intros H. injection H as Hx Hl. f_equal; [|now apply IH].
  rewrite <- (ascii_N_embedding x), <- (ascii_N_embedding y). now f_equal.
Qed.

(** Two clock readings print alike only when they are equal. *)
Lemma Number_toString_inj (n m : Z) :
  Number_toString n = Number_toString m -> n = m.
Proof.
  unfold Number_toString. intros H. apply js_inj in H.
  apply DecimalZ.to_int_inj.
  assert (E : Some (Z.to_int n) = Some (Z.to_int m)).
  { rewrite <- !NilEmpty.isi. now rewrite H. }
  now injection E.
Qed.

End Strings.

(** ** The guard of [handleSendMessage] *)

Section Guard.

Variables (now : Z) (userInput : jsstring).

Lemma passes_inv (captured : bool) (s : AppState) :
  passes captured s = true ->
  captured = false /\ exists c, chatSessionRef s = Some c.
Proof.
  unfold passes, hasSession.
  destruct captured, (chatSessionRef s) as [c|]; simpl; try discriminate.
  intros _. split; [reflexivity | now exists c].
Qed.

Lemma accepting_passes (s : AppState) :
  accepting s = passes (isLoading s) s.
Proof. reflexivity. Qed.

Lemma accepting_inv (s : AppState) :
  accepting s = true ->
  isLoading s = false /\ exists c, chatSessionRef s = Some c.
Proof. rewrite accepting_passes. apply passes_inv. Qed.

Lemma call_rejected (captured : bool) (s : AppState) :
  passes captured s = false ->
  handleSendMessage_call captured now userInput s = Returned s.
Proof.
  unfold passes, handleSendMessage_call, handleSendMessage_effects.
  intros P. apply negb_false_iff in P. now rewrite P.
Qed.

Lemma call_accepted (s : AppState) (c : ChatSession) :
  chatSessionRef s = Some c ->
  handleSendMessage_call false now userInput s
  = Suspended {| messages := messages s ++ [userMessageOf now userInput];
                 isLoading := true;
                 error := None;
                 chatSessionRef := Some (sendMessage userInput c) |}.
Proof.
  intros C. unfold handleSendMessage_call, handleSendMessage_effects,
    hasSession. rewrite C. cbn. now rewrite C.
Qed.

Lemma captured_busy_does_not_pass (s : AppState) : passes true s = false.
Proof. reflexivity. Qed.

Lemma no_session_does_not_pass (captured : bool) (s : AppState) :
  chatSessionRef s = None -> passes captured s = false.
Proof.
  unfold passes, hasSession. intros ->. now rewrite orb_true_r.
Qed.

End Guard.

Lemma dispatch_rejected (m : Machine) (e : Event) :
  chatSessionRef (ui m) = None -> pending m = 0%nat -> rendered m = ui m ->
  dispatch m e = m.
Proof.
  intros A P R. destruct m as [s r p]; simpl in *. subst p r.
  destruct e as [u t | typed t | o t |]; simpl; unfold call; simpl;
    try reflexivity.
  - now rewrite (@call_rejected t u _ s (@no_session_does_not_pass _ s A)).
  - destruct (fst (handleSubmit typed)) as [u|]; [|reflexivity].
    now rewrite (@call_rejected t u _ s (@no_session_does_not_pass _ s A)).
Qed.

Lemma run_rejected (m : Machine) (events : list Event) :
  chatSessionRef (ui m) = None -> pending m = 0%nat -> rendered m = ui m ->
  run m events = m.
Proof.
  intros A P R. unfold run. induction events as [|e events IH]; simpl.
  - reflexivity.
  - now rewrite (dispatch_rejected m e A P R).
Qed.

(** ** Busy exclusion *)


(** What the guard does give: a handler whose render saw the busy flag set
    returns at once, so once React has rendered a busy component every call
    leaves the conversation and the session as they are. *)
Theorem send_after_busy_render_is_noop
    (m : Machine) (userInput : jsstring) (now : Z) :
  isLoading (ui m) = true ->
  dispatch (dispatch m Render) (Send userInput now) = dispatch m Render.
Proof.
  intros B. cbn [dispatch]. unfold call. cbn [ui rendered pending].
  rewrite B. now rewrite (@call_rejected now userInput true (ui m)
                            (captured_busy_does_not_pass (ui m))).
Qed.

Lemma send_after_busy_render_is_noop_witness :
  let m := dispatch readyMachine (Send (js "first") 5) in
  isLoading (ui m) = true
  /\ outbound (ui (dispatch (dispatch m Render) (Send (js "second") 6)))
     = [js "first"]
  /\ pending (dispatch (dispatch m Render) (Send (js "second") 6)) = 1%nat.
Proof.
  intros m. split; [reflexivity|].
  rewrite (send_after_busy_render_is_noop m (js "second") 6 eq_refl).
  split; reflexivity.
Defined.

(** ** Blank input *)

(** C2, as stated, fails: [handleSendMessage] has no test on its argument.
    Called on an idle component with the empty text or with three spaces, it
    appends a turn (the conversation grows from one to two messages) and
    passes the blank text to the session. *)
Lemma blank_text_passes_the_handler :
  let after text :=
    stateOf (handleSendMessage_call (isLoading readyState) 7 text
               readyState) in
  blank (js "   ") = true /\ blank (js "") = true
  /\ List.length (messages readyState) = 1%nat
  /\ List.length (messages (after (js "   "))) = 2%nat
  /\ outbound (after (js "   ")) = [js "   "]
  /\ List.length (messages (after (js ""))) = 2%nat
  /\ outbound (after (js "")) = [js ""].
Proof. repeat split. Qed.

(** C2, amended. The blank test is the one of [ChatInput]: for every text
    in the input box that is empty or holds only white space, [handleSubmit]
    does not call [onSendMessage] and leaves the box as it is, so a submit
    of such a text changes nothing: the conversation and the exchanges
    issued are unchanged, in whatever state the component is. *)
Theorem blank_submit_is_noop (typed : jsstring) (now : Z) (m : Machine) :
  blank typed = true ->
  handleSubmit typed = (None, typed)
  /\ dispatch m (Submit typed now) = m
  /\ forall disabled, Components.handleSubmit disabled typed = (None, typed).
Proof.
  intros B.
  assert (H : handleSubmit typed = (None, typed)).
  { unfold handleSubmit. now rewrite truthy_trim, B. }
  split; [exact H|]. split.
  - simpl. now rewrite H.
  - intros d. unfold Components.handleSubmit. now rewrite truthy_trim, B.
Qed.

Lemma blank_submit_is_noop_witness :
  blank (js "   ") = true
  /\ dispatch readyMachine (Submit (js "   ") 7) = readyMachine
  /\ dispatch readyMachine (Submit (js "") 7) = readyMachine.
Proof.
  split; [reflexivity|]. split.
  - apply (blank_submit_is_noop (js "   ") 7 readyMachine). reflexivity.
  - apply (blank_submit_is_noop (js "") 7 readyMachine). reflexivity.
Defined.

(** ** Initialization *)

(** C3. When the credential is absent ([undefined], or the empty string,
    which [!API_KEY] treats alike), the mounted component has an empty
    conversation, holds the missing-key text as its error, a non-empty text
    that the error panel shows, holds no session and is no longer loading,
    that is, it is in the state the specification calls INIT_FAILED; every
    later call of [handleSendMessage] returns at its guard, whatever the
    render of the handler saw, and no sequence of events changes the
    component. *)
Theorem missing_credential_is_fatal
    (API_KEY : option jsstring) (construction : InitOutcome) :
  truthy_opt API_KEY = false ->
  let m := mounted API_KEY construction in
  messages (ui m) = []
  /\ error (ui m)
     = Some (js "API Key is missing. Make sure you have set the VITE_GEMINI_API_KEY environment variable in your .env file or deployment service (like Netlify).")
  /\ showError (ui m) = true
  /\ chatSessionRef (ui m) = None
  /\ isLoading (ui m) = false
  /\ readiness (ui m) = INIT_FAILED
  /\ (forall captured userInput now,
        handleSendMessage_call captured now userInput (ui m)
        = Returned (ui m))
  /\ (forall events, run m events = m).
Proof.
  intros K m.
  assert (E : ui m = {| messages := []; isLoading := false;
                        error := Some apiKeyMissing;
                        chatSessionRef := None |}).
  { unfold m, mounted, initializeChat. simpl. now rewrite K. }
  rewrite E. do 6 (split; [reflexivity|]). split.
  - intros c u t. now apply call_rejected, no_session_does_not_pass.
  - intros events. apply run_rejected; [now rewrite E | reflexivity..].
Qed.

Lemma missing_credential_is_fatal_witness :
  truthy_opt None = false
  /\ let m := mounted None Constructed in
     messages (ui m) = []
     /\ showError (ui m) = true
     /\ readiness (ui m) = INIT_FAILED
     /\ run m [Send (js "hello") 3; Render; Settle (Resolved (js "hi")) 4]
        = m.
Proof.
  split; [reflexivity|].
  pose proof (missing_credential_is_fatal None Constructed eq_refl) as H.
  cbv zeta in H. destruct H as (M & _ & S & _ & _ & R & _ & N).
  cbv zeta. split; [exact M|]. split; [exact S|]. split; [exact R|].
  apply N.
Defined.

Lemma initializeChat_constructed (API_KEY : option jsstring) (s : AppState) :
  truthy_opt API_KEY = true ->
  initializeChat API_KEY Constructed s
  = {| messages := [initialMessage]; isLoading := false; error := None;
       chatSessionRef := Some startChat |}.
Proof.
  intros K. unfold initializeChat. now rewrite K.
Qed.

(** C4. When the credential is present and the construction of the session
    does not throw, [initializeChat] leaves a component that holds a session
    (READY), is not loading, shows no error, and whose conversation is
    exactly the greeting of the assistant. *)
Theorem initialization_seeds_greeting
    (API_KEY : option jsstring) (s : AppState) :
  truthy_opt API_KEY = true ->
  let s' := initializeChat API_KEY Constructed s in
  readiness s' = READY
  /\ messages s'
     = [ {| id := js "initial-message"; role := MODEL;
            content := js "Hello! I'm an assistant powered by Gemini. How can I help you today?" |} ]
  /\ isLoading s' = false
  /\ error s' = None
  /\ chatSessionRef s' = Some startChat.
Proof.
  intros K s'. unfold s'. rewrite (initializeChat_constructed API_KEY s K).
  repeat split.
Qed.

Lemma initialization_seeds_greeting_witness :
  truthy_opt sampleKey = true
  /\ readiness readyState = READY
  /\ map role (messages readyState) = [MODEL]
  /\ map content (messages readyState) = [greetingText].
Proof.
  split; [reflexivity|].
  pose proof (initialization_seeds_greeting sampleKey initialState eq_refl)
    as H.
  cbv zeta in H. destruct H as (R & M & _).
  split; [exact R|]. unfold readyState, readyMachine, mounted, ui.
  rewrite M. split; reflexivity.
Defined.

(** ** The user turn *)

(** C5, as stated, fails: [handleSendMessage] stores its argument as it
    is. Called with [" hello "], whose trimmed form is ["hello"], it appends
    a user turn with the untrimmed text, and no user turn of the resulting
    conversation has the trimmed text. *)
Lemma echo_is_not_trimmed_by_the_handler :
  let typed := js " hello " in
  blank typed = false
  /\ trim typed = js "hello"
  /\ exists s',
       handleSendMessage_call (isLoading readyState) 7 typed readyState
       = Suspended s'
       /\ messages s' = messages readyState ++ [userMessageOf 7 typed]
       /\ forall msg, In msg (messages s') ->
            role msg = USER -> content msg <> trim typed.
Proof.
  split; [reflexivity|]. split; [reflexivity|].
  eexists. split; [reflexivity|]. split; [reflexivity|].
  intros msg [<- | [<- | []]]; simpl; intros R; discriminate.
Qed.

(** C5, amended. For every text passed to a handler that passes its guard
    (its render saw the component idle, and there is a session), the
    statements the handler runs before its [await] are, in this order: set
    the busy flag, clear the error, append the USER turn that holds exactly
    the text passed, and only then call the session's [sendMessage] with
    the text. So when the exchange is issued the conversation already ends
    with the USER turn and the busy flag is true, and the exchange is the
    last one issued when the handler waits. The handler does not trim: the
    text it gets from a submit of the input box is the one [handleSubmit]
    has trimmed, so for a non-blank typed text the turn holds the trimmed
    text. *)
Theorem user_turn_is_echoed_at_once
    (captured : bool) (s : AppState) (userInput : jsstring) (now : Z) :
  passes captured s = true ->
  let userTurn := {| id := js "user-" ++ Number_toString now;
                     role := USER; content := userInput |} in
  let atIssue :=
    fold_left perform
      [SetIsLoading true; SetError None; AppendMessage userTurn] s in
  handleSendMessage_effects captured now userInput s
  = Some [SetIsLoading true; SetError None; AppendMessage userTurn;
          SendMessage userInput]
  /\ messages atIssue = messages s ++ [userTurn]
  /\ isLoading atIssue = true
  /\ outbound atIssue = outbound s
  /\ exists s',
       handleSendMessage_call captured now userInput s = Suspended s'
       /\ s' = perform atIssue (SendMessage userInput)
       /\ messages s' = messages s ++ [userTurn]
       /\ isLoading s' = true
       /\ outbound s' = outbound s ++ [userInput]
       /\ forall typed r n,
            fst (handleSubmit typed) = Some userInput ->
            isLoading r = captured ->
            userInput = trim typed /\ blank typed = false
            /\ dispatch {| ui := s; rendered := r; pending := n |}
                 (Submit typed now)
               = {| ui := s'; rendered := r; pending := S n |}.
Proof.
  intros A userTurn atIssue. destruct (passes_inv captured s A) as [-> [c C]].
  assert (E : handleSendMessage_effects false now userInput s
              = Some [SetIsLoading true; SetError None;
                      AppendMessage userTurn; SendMessage userInput]).
  { unfold handleSendMessage_effects, hasSession. now rewrite C. }
  split; [exact E|]. split; [reflexivity|]. split; [reflexivity|].
  split; [reflexivity|].
  exists (perform atIssue (SendMessage userInput)).
  split; [unfold handleSendMessage_call; now rewrite E|].
  split; [reflexivity|]. split; [reflexivity|]. split; [reflexivity|].
  split; [unfold outbound, atIssue; cbn; now rewrite C|].
  intros typed r n. unfold dispatch. unfold handleSubmit at 1.
  rewrite truthy_trim. destruct (blank typed) eqn:B; simpl; [discriminate|].
  intros F R. injection F as F. split; [now symmetry|].
  split; [reflexivity|].
  unfold handleSubmit. rewrite truthy_trim, B. simpl. unfold call. simpl.
  rewrite F, R. unfold handleSendMessage_call. now rewrite E.
Qed.

Lemma user_turn_is_echoed_at_once_witness :
  passes (isLoading readyState) readyState = true
  /\ exists s',
       handleSendMessage_call false 7 (js "hello") readyState = Suspended s'
       /\ map content (messages s') = [greetingText; js "hello"]
       /\ isLoading s' = true
       /\ dispatch readyMachine (Submit (js "  hello ") 7)
          = {| ui := s'; rendered := readyState; pending := 1 |}.
Proof.
  split; [reflexivity|].
  pose proof (user_turn_is_echoed_at_once false readyState (js "hello") 7
                eq_refl) as H.
  cbv zeta in H. destruct H as (_ & _ & _ & _ & s' & E & _ & M & L & _ & T).
  exists s'. split; [exact E|]. split; [now rewrite M|]. split; [exact L|].
  apply (T (js "  hello ") readyState 0%nat); reflexivity.
Defined.

(** ** Failures of the exchange *)

Lemma handleSendMessage_accepted
    (s : AppState) (c : ChatSession) (userInput : jsstring)
    (sentAt repliedAt : Z) (r : Outcome) :
  chatSessionRef s = Some c ->
  handleSendMessage false sentAt repliedAt r userInput s
  = handleSendMessage_resume repliedAt r
      {| messages := messages s ++ [userMessageOf sentAt userInput];
         isLoading := true; error := None;
         chatSessionRef := Some (sendMessage userInput c) |}.
Proof.
  intros C. unfold handleSendMessage.
  now rewrite (call_accepted sentAt userInput s C).
Qed.

Lemma resume_failure
    (s : AppState) (repliedAt : Z) (r : Outcome) (errorMessage : jsstring) :
  failureText r = Some errorMessage ->
  handleSendMessage_resume repliedAt r s
  = {| messages := messages s
                   ++ [errorResponseMessageOf repliedAt errorMessage];
       isLoading := false;
       error := Some (js "API Error: " ++ errorMessage);
       chatSessionRef := chatSessionRef s |}.
Proof.
  destruct r as [[|u resp] | e]; simpl; intros F;
    try discriminate; injection F as <-; reflexivity.
Qed.

Lemma resume_success
    (s : AppState) (repliedAt : Z) (responseContent : jsstring) :
  truthy responseContent = true ->
  handleSendMessage_resume repliedAt (Resolved responseContent) s
  = {| messages := messages s ++ [modelMessageOf repliedAt responseContent];
       isLoading := false;
       error := error s;
       chatSessionRef := chatSessionRef s |}.
Proof.
  intros T. unfold handleSendMessage_resume. now rewrite T.
Qed.

Lemma errorContent_has_apology (errorMessage : jsstring) :
  Contains apologyText (errorContent errorMessage).
Proof.
  unfold errorContent. apply (Contains_middle [] apologyText).
Qed.

Lemma errorContent_has_message (errorMessage : jsstring) :
  Contains errorMessage (errorContent errorMessage).
Proof.
  unfold errorContent.
  exists (apologyText ++ [LF; LF] ++ js "*Error: "), (js "*").
  now rewrite <- !app_assoc.
Qed.

Lemma errorContent_not_empty (errorMessage : jsstring) :
  errorContent errorMessage <> [].
Proof. discriminate. Qed.

(** C6. When the exchange returns the empty string, a whole run of a
    handler that passes its guard appends, after the USER turn, the error
    turn of the assistant: its text holds the apology and the text of the
    empty-response error, it is not empty, and no turn with an empty text
    is appended. The busy flag is false at the end and the banner shows the
    same error. *)
Theorem empty_response_gives_error_turn
    (captured : bool) (s : AppState) (userInput : jsstring)
    (sentAt repliedAt : Z) :
  passes captured s = true ->
  let s' := handleSendMessage captured sentAt repliedAt (Resolved [])
              userInput s in
  let errorTurn :=
    {| id := js "error-" ++ Number_toString repliedAt;
       role := MODEL;
       content := js "Sorry, I ran into a problem. Please try again."
                  ++ [LF; LF]
                  ++ js "*Error: Received an empty response from the API.*" |} in
  messages s'
  = messages s ++ [userMessageOf sentAt userInput; errorTurn]
  /\ Contains apologyText (content errorTurn)
  /\ Contains emptyResponseText (content errorTurn)
  /\ (forall msg, In msg [userMessageOf sentAt userInput; errorTurn] ->
        role msg = MODEL -> content msg <> [])
  /\ isLoading s' = false
  /\ error s' = Some (js "API Error: " ++ emptyResponseText).
Proof.
  intros A s' errorTurn. destruct (passes_inv captured s A) as [-> [c C]].
  assert (T : errorTurn = errorResponseMessageOf repliedAt emptyResponseText)
    by reflexivity.
  unfold s'. rewrite (handleSendMessage_accepted s userInput sentAt
                        repliedAt (Resolved []) C).
  rewrite (resume_failure _ repliedAt (Resolved []) eq_refl).
  cbn [messages isLoading error]. rewrite T.
  split; [now rewrite <- app_assoc|].
  split; [exact (errorContent_has_apology emptyResponseText)|].
  split; [exact (errorContent_has_message emptyResponseText)|].
  split; [|split; reflexivity].
  intros msg [<- | [<- | []]]; intros R;
    [discriminate R | exact (@errorContent_not_empty emptyResponseText)].
Qed.

Lemma empty_response_gives_error_turn_witness :
  passes (isLoading readyState) readyState = true
  /\ let s' := handleSendMessage false 7 9 (Resolved []) (js "hello")
                 readyState in
     map role (messages s') = [MODEL; USER; MODEL]
     /\ List.length (messages s') = 3%nat
     /\ isLoading s' = false.
Proof.
  split; [reflexivity|].
  pose proof (empty_response_gives_error_turn false readyState (js "hello")
                7 9 eq_refl) as H.
  cbv zeta in H. destruct H as (M & _ & _ & _ & L & _).
  cbv zeta. rewrite M. split; [reflexivity|]. split; [reflexivity|exact L].
Defined.

(** A reply that holds only white space is not empty, so it is not treated
    as a failure: its trimmed form, the empty text, becomes the turn. *)
Example blank_response_gives_empty_turn :
  map content
    (messages (handleSendMessage false 7 9 (Resolved (js "  ")) (js "hello")
                 readyState))
  = [greetingText; js "hello"; []].
Proof. reflexivity. Qed.

(** C7, as stated, fails when the value thrown is not an [Error]: the
    handler then reports a fixed text instead of the value. When the
    exchange throws the string ["timeout"], no turn of the resulting
    conversation holds that text. *)
Lemma thrown_string_is_not_reported :
  let s' := handleSendMessage (isLoading readyState) 7 9
              (Rejected (ThrownString (js "timeout")))
              (js "trigger failure") readyState in
  messages s'
  = messages readyState
    ++ [userMessageOf 7 (js "trigger failure");
        errorResponseMessageOf 9 (js "An unknown error occurred.")]
  /\ forall msg, In msg (messages s') ->
       ~ Contains (js "timeout") (content msg).
Proof.
  split; [reflexivity|].
  intros msg [<- | [<- | [<- | []]]];
    rewrite <- includes_Contains; vm_compute; discriminate.
Qed.

(** C7, amended. For every failure of the exchange (a thrown value, or an
    empty response), a whole run of a handler that passes its guard appends
    the USER turn and then an ASSISTANT turn whose text holds the apology
    and the reported error text; the banner error is set to that text after
    ["API Error: "], and the busy flag ends false. The reported text is the
    [message] of a thrown [Error], the empty-response text for an empty
    response, and the fixed text ["An unknown error occurred."] for a
    thrown value that is no [Error]. *)
Theorem failed_exchange_gives_error_turn
    (captured : bool) (s : AppState) (userInput : jsstring)
    (sentAt repliedAt : Z) (r : Outcome) (errorMessage : jsstring) :
  passes captured s = true ->
  failureText r = Some errorMessage ->
  let s' := handleSendMessage captured sentAt repliedAt r userInput s in
  let errorTurn :=
    {| id := js "error-" ++ Number_toString repliedAt;
       role := MODEL;
       content := js "Sorry, I ran into a problem. Please try again."
                  ++ [LF; LF] ++ js "*Error: " ++ errorMessage ++ js "*" |} in
  messages s'
  = messages s ++ [userMessageOf sentAt userInput; errorTurn]
  /\ Contains (js "Sorry, I ran into a problem. Please try again.")
       (content errorTurn)
  /\ Contains errorMessage (content errorTurn)
  /\ error s' = Some (js "API Error: " ++ errorMessage)
  /\ isLoading s' = false
  /\ (forall message,
        r = Rejected (ErrorInstance message) -> errorMessage = message)
  /\ (r = Resolved [] -> errorMessage = emptyResponseText)
  /\ (forall e, r = Rejected e ->
        (forall message, e <> ErrorInstance message) ->
        errorMessage = js "An unknown error occurred.").
Proof.
  intros A F s' errorTurn. destruct (passes_inv captured s A) as [-> [c C]].
  unfold s'. rewrite (handleSendMessage_accepted s userInput sentAt
                        repliedAt r C).
  rewrite (resume_failure _ repliedAt r F).
  cbn [messages isLoading error].
  split; [now rewrite <- app_assoc|].
  split; [exact (errorContent_has_apology errorMessage)|].
  split; [exact (errorContent_has_message errorMessage)|].
  split; [reflexivity|]. split; [reflexivity|].
  split; [|split].
  - intros message ->. simpl in F. now injection F.
  - intros ->. simpl in F. now injection F.
  - intros e -> N. simpl in F. injection F as <-.
    destruct e as [message | t |]; [now destruct (N message) | | ];
      reflexivity.
Qed.

Lemma failed_exchange_gives_error_turn_witness :
  passes (isLoading readyState) readyState = true
  /\ failureText (Rejected (ErrorInstance (js "timeout"))) = Some (js "timeout")
  /\ exists userTurn errorTurn,
       messages failedOnceState
       = messages readyState ++ [userTurn; errorTurn]
       /\ role userTurn = USER /\ role errorTurn = MODEL
       /\ Contains apologyText (content errorTurn)
       /\ Contains (js "timeout") (content errorTurn)
       /\ error failedOnceState = Some (js "API Error: timeout").
Proof.
  split; [reflexivity|]. split; [reflexivity|].
  pose proof (failed_exchange_gives_error_turn false readyState
                (js "trigger failure") 7 9
                (Rejected (ErrorInstance (js "timeout"))) eq_refl eq_refl)
    as H.
  cbv zeta in H. destruct H as (M & P & T & E & _).
  do 2 eexists. split; [exact M|].
  split; [reflexivity|]. split; [reflexivity|].
  split; [exact P|]. split; [exact T|exact E].
Defined.

(** ** The banner *)



(** ** Sequences of successful exchanges *)

Lemma run_app (m : Machine) (a b : list Event) :
  run m (a ++ b) = run (run m a) b.
Proof. apply fold_left_app. Qed.

Lemma call_passing (u : jsstring) (now : Z) (m : Machine) (c : ChatSession) :
  isLoading (rendered m) = false -> chatSessionRef (ui m) = Some c ->
  call u now m
  = {| ui := {| messages := messages (ui m) ++ [userMessageOf now u];
                isLoading := true; error := None;
                chatSessionRef := Some (sendMessage u c) |};
       rendered := rendered m;
       pending := S (pending m) |}.
Proof.
  intros L C. unfold call. rewrite L.
  now rewrite (call_accepted now u (ui m) C).
Qed.

Lemma exchange_run
    (rerender : bool) (m : Machine) (c : ChatSession) (x : Exchange) :
  isLoading (rendered m) = false -> chatSessionRef (ui m) = Some c ->
  pending m = 0%nat -> truthy (reply x) = true ->
  let s' := {| messages := messages (ui m) ++ turnsOf x;
               isLoading := false; error := None;
               chatSessionRef := Some (sendMessage (text x) c) |} in
  run m (eventsOf rerender x)
  = {| ui := s'; rendered := if rerender then s' else rendered m;
       pending := 0 |}.
Proof.
  intros L C P T s'.
  assert (E : ui (dispatch (call (text x) (sentAt x) m)
                    (Settle (Resolved (reply x)) (repliedAt x))) = s'
              /\ pending (dispatch (call (text x) (sentAt x) m)
                            (Settle (Resolved (reply x)) (repliedAt x)))
                 = 0%nat).
  { rewrite (call_passing (text x) (sentAt x) m L C), P.
    cbn [dispatch pending ui].
    rewrite (resume_success _ (repliedAt x) (reply x) T).
    cbn [messages error chatSessionRef]. unfold s', turnsOf.
    now rewrite <- app_assoc. }
  destruct E as [Eu Ep]. unfold run, eventsOf.
  destruct rerender; cbn [fold_left].
  - change (dispatch m (Send (text x) (sentAt x)))
      with (call (text x) (sentAt x) m).
    rewrite (call_passing (text x) (sentAt x) m L C), P in *.
    cbn [dispatch pending ui rendered] in *. now rewrite Eu.
  - change (dispatch m (Send (text x) (sentAt x)))
      with (call (text x) (sentAt x) m).
    rewrite (call_passing (text x) (sentAt x) m L C), P in *.
    cbn [dispatch pending ui rendered] in *. now rewrite Eu.
Qed.

Lemma exchanges_run (rerender : bool) (xs : list Exchange) :
  forall (m : Machine) (c : ChatSession),
  isLoading (rendered m) = false -> isLoading (ui m) = false ->
  chatSessionRef (ui m) = Some c ->
  pending m = 0%nat -> error (ui m) = None ->
  Forall (fun x => truthy (reply x) = true) xs ->
  let m' := run m (flat_map (eventsOf rerender) xs) in
  messages (ui m') = messages (ui m) ++ flat_map turnsOf xs
  /\ isLoading (ui m') = false
  /\ error (ui m') = None
  /\ pending m' = 0%nat
  /\ outbound (ui m') = requests c ++ map text xs.
Proof.
  induction xs as [|x xs IH]; intros m c L Lu C P E F; cbv zeta.
  - simpl. rewrite !app_nil_r. unfold outbound. now rewrite C.
  - inversion F as [|? ? Tx Fxs]; subst.
    cbn [flat_map]. rewrite run_app, (exchange_run rerender m x L C P Tx).
    match goal with |- context [run ?n _] => set (m1 := n) end.
    assert (L1 : isLoading (rendered m1) = false)
      by (unfold m1; now destruct rerender).
    destruct (IH m1 (sendMessage (text x) c) L1 eq_refl eq_refl eq_refl
                eq_refl Fxs) as (M & L' & E' & P' & O).
    rewrite M, O. cbn [ui messages m1 sendMessage requests map].
    rewrite <- !app_assoc. now repeat split.
Qed.

(** C8. From a successfully initialized component, after any sequence of
    exchanges that each succeed with a non-empty reply, the conversation is
    the greeting followed, in the order of the exchanges, by the USER turn
    and the ASSISTANT turn of each exchange: the roles alternate USER,
    ASSISTANT after the greeting, the texts are the text sent and the
    trimmed reply, the exchanges issued are the texts sent in order, and the
    busy flag is false with no reply awaited. This holds whether React
    renders the component after each call and each reply or not in between;
    as the sequence is arbitrary, it holds after each exchange of a longer
    sequence. *)
Theorem successful_sends_alternate
    (API_KEY : option jsstring) (xs : list Exchange) (rerender : bool) :
  truthy_opt API_KEY = true ->
  Forall (fun x => truthy (reply x) = true) xs ->
  let m := run (mounted API_KEY Constructed)
             (flat_map (eventsOf rerender) xs) in
  messages (ui m) = initialMessage :: flat_map turnsOf xs
  /\ map role (messages (ui m))
     = MODEL :: flat_map (fun _ => [USER; MODEL]) xs
  /\ map content (messages (ui m))
     = greetingText :: flat_map (fun x => [text x; trim (reply x)]) xs
  /\ isLoading (ui m) = false
  /\ pending m = 0%nat
  /\ outbound (ui m) = map text xs.
Proof.
  intros K F m.
  assert (I : mounted API_KEY Constructed
              = let s := {| messages := [initialMessage]; isLoading := false;
                            error := None; chatSessionRef := Some startChat |}
                in {| ui := s; rendered := s; pending := 0 |}).
  { unfold mounted.
    now rewrite (initializeChat_constructed API_KEY initialState K). }
  destruct (@exchanges_run rerender xs (mounted API_KEY Constructed)
              startChat)
    as (M & L & _ & P & O);
    try (rewrite I; reflexivity); [exact F |].
  fold m in M, L, P, O. rewrite I in M. cbn [ui messages] in M.
  split; [exact M|]. rewrite M.
  split; [|split; [|split; [exact L | split; [exact P | exact O]]]].
  - cbn [app map role initialMessage]. f_equal.
    clear. induction xs as [|x xs IH]; simpl; now rewrite ?IH.
  - cbn [app map content initialMessage]. f_equal.
    clear. induction xs as [|x xs IH]; simpl; now rewrite ?IH.
Qed.

Lemma successful_sends_alternate_witness :
  let x := {| text := js "What is 2+2?"; sentAt := 7;
              reply := js "4"; repliedAt := 9 |} in
  let m := run readyMachine (eventsOf true x) in
  truthy_opt sampleKey = true
  /\ Forall (fun x => truthy (reply x) = true) [x]
  /\ map role (messages (ui m)) = [MODEL; USER; MODEL]
  /\ map content (messages (ui m))
     = [greetingText; js "What is 2+2?"; js "4"]
  /\ isLoading (ui m) = false.
Proof.
  intros x.
  assert (F : Forall (fun x => truthy (reply x) = true) [x]).
  { constructor; [reflexivity | constructor]. }
  pose proof (successful_sends_alternate sampleKey true eq_refl F) as H.
  cbv zeta in H. destruct H as (_ & R & T & L & _).
  cbv zeta. split; [reflexivity|]. split; [exact F|].
  split; [exact R|]. split; [exact T | exact L].
Defined.

(** ** What one event does *)

Lemma resume_cases (now : Z) (r : Outcome) (s : AppState) :
  exists msg err,
    handleSendMessage_resume now r s
    = {| messages := messages s ++ [msg]; isLoading := false;
         error := err; chatSessionRef := chatSessionRef s |}
    /\ role msg = MODEL
    /\ ((exists resp, r = Resolved resp /\ truthy resp = true
                      /\ failureText r = None
                      /\ msg = modelMessageOf now resp /\ err = error s)
        \/ (exists t, failureText r = Some t
                      /\ msg = errorResponseMessageOf now t
                      /\ err = Some (js "API Error: " ++ t))).
Proof.
  destruct (failureText r) as [t|] eqn:F.
  - exists (errorResponseMessageOf now t), (Some (js "API Error: " ++ t)).
    split; [apply (resume_failure s now r F)|]. split; [reflexivity|].
    right. now exists t.
  - destruct r as [[|u resp] | e]; try discriminate.
    exists (modelMessageOf now (u :: resp)), (error s).
    split; [now apply resume_success|]. split; [reflexivity|].
    left. now exists (u :: resp).
Qed.

Lemma call_cases (u : jsstring) (now : Z) (m : Machine) :
  (passes (isLoading (rendered m)) (ui m) = false /\ call u now m = m)
  \/ (passes (isLoading (rendered m)) (ui m) = true
      /\ exists c,
           isLoading (rendered m) = false /\ chatSessionRef (ui m) = Some c
           /\ call u now m
              = {| ui := {| messages := messages (ui m)
                                        ++ [userMessageOf now u];
                            isLoading := true; error := None;
                            chatSessionRef := Some (sendMessage u c) |};
                   rendered := rendered m;
                   pending := S (pending m) |}).
Proof.
  destruct (passes (isLoading (rendered m)) (ui m)) eqn:A.
  - right. split; [reflexivity|].
    destruct (passes_inv _ _ A) as [L [c C]]. exists c.
    split; [exact L|]. split; [exact C|]. now apply call_passing.
  - left. split; [reflexivity|]. unfold call.
    rewrite (@call_rejected now u _ (ui m) A). now destruct m.
Qed.

(** An event leaves the state and the awaited replies as they are, or
    starts an exchange through a handler whose render saw the component
    idle, or settles an awaited exchange. *)
Lemma dispatch_cases (m : Machine) (e : Event) :
  (ui (dispatch m e) = ui m /\ pending (dispatch m e) = pending m
   /\ (rendered (dispatch m e) = rendered m
       \/ rendered (dispatch m e) = ui m)
   /\ created m e = None)
  \/ (exists u t c,
        isCall e = true
        /\ isLoading (rendered m) = false /\ chatSessionRef (ui m) = Some c
        /\ created m e = Some (UserTurn, t)
        /\ dispatch m e
           = {| ui := {| messages := messages (ui m) ++ [userMessageOf t u];
                         isLoading := true; error := None;
                         chatSessionRef := Some (sendMessage u c) |};
                rendered := rendered m;
                pending := S (pending m) |})
  \/ (exists n t r,
        isCall e = false
        /\ pending m = S n
        /\ created m e
           = Some (match failureText r with
                   | Some _ => ErrorTurn
                   | None => ModelTurn
                   end, t)
        /\ dispatch m e
           = {| ui := handleSendMessage_resume t r (ui m);
                rendered := rendered m; pending := n |}).
Proof.
  destruct e as [u t | typed t | r t |]; cbn [dispatch created isCall].
  - destruct (call_cases u t m) as [[A E] | (A & c & L & C & E)]; rewrite A.
    + left. rewrite E. auto.
    + right; left. now exists u, t, c.
  - destruct (fst (handleSubmit typed)) as [u|]; [|left; auto].
    destruct (call_cases u t m) as [[A E] | (A & c & L & C & E)]; rewrite A.
    + left. rewrite E. auto.
    + right; left. now exists u, t, c.
  - destruct (pending m) as [|n] eqn:P; [left; auto|].
    right; right. exists n, t, r. repeat split.
    now destruct (failureText r).
  - left. cbn. auto.
Qed.

Lemma run_invariant (P : Machine -> Prop) :
  (forall m e, P m -> P (dispatch m e)) ->
  forall events m, P m -> P (run m events).
Proof.
  intros Step events. unfold run.
  induction events as [|e events IH]; intros m H; simpl; [exact H|].
  apply IH, Step, H.
Qed.

(** ** Message ids *)

(** C9, as stated, fails: an id is a fixed prefix followed by the reading
    of [Date.now()], so two user turns built at the same reading share
    their id. Here the clock reads 1000 at both sends (the wall clock may be
    set back in between). *)
Lemma same_clock_reading_repeats_id :
  let m := run readyMachine
             [Send (js "a") 1000; Render;
              Settle (Resolved (js "x")) 1250; Render;
              Send (js "b") 1000] in
  map id (messages (ui m))
  = [js "initial-message"; js "user-1000"; js "model-1250"; js "user-1000"]
  /\ ~ NoDup (map id (messages (ui m))).
Proof.
  split; [reflexivity|].
  intros H. inversion H as [|? ? _ H1]. inversion H1 as [|? ? N _].
  apply N. right. left. reflexivity.
Qed.

Ltac first_unit H :=
  apply (f_equal (hd 0%N)) in H; vm_compute in H; discriminate H.

Ltac same_stamp H :=
  apply app_inv_head in H; apply Number_toString_inj in H.

(** Two turns get the same id only when they are of the same kind and were
    built at the same clock reading. *)
Lemma idOf_inj (a b : Kind * Z) : idOf a = idOf b -> a = b.
Proof.
  destruct a as [[| |] t], b as [[| |] t']; unfold idOf; cbn [fst snd prefixOf];
    intros H; first [ first_unit H | same_stamp H; now subst ].
Qed.

Lemma idOf_not_initial (a : Kind * Z) : idOf a <> js "initial-message".
Proof.
  destruct a as [[| |] t]; unfold idOf; cbn [fst snd prefixOf];
    intros H; first_unit H.
Qed.

Lemma NoDup_map_idOf (l : list (Kind * Z)) :
  NoDup (map idOf l) <-> NoDup l.
Proof.
  split; [apply NoDup_map_inv|].
  induction l as [|a l IH]; intros D; cbn [map]; [constructor|].
  inversion D as [|? ? N D']; subst. constructor; [|now apply IH].
  rewrite in_map_iff. intros [b [E I]]. apply idOf_inj in E. now subst b.
Qed.

Lemma NoDup_ids (pre : list jsstring) (l : list (Kind * Z)) :
  pre = [] \/ pre = [js "initial-message"] ->
  NoDup (pre ++ map idOf l) <-> NoDup l.
Proof.
  intros [-> | ->]; cbn [app]; [apply NoDup_map_idOf|].
  rewrite NoDup_cons_iff, NoDup_map_idOf. split; [tauto|].
  intros D. split; [|exact D].
  rewrite in_map_iff. intros [b [E _]]. exact (idOf_not_initial b E).
Qed.

Lemma dispatch_ids (m : Machine) (e : Event) :
  map id (messages (ui (dispatch m e)))
  = map id (messages (ui m))
    ++ map idOf (match created m e with Some stamp => [stamp] | None => [] end).
Proof.
  destruct (dispatch_cases m e)
    as [(-> & _ & _ & ->) | [(u & t & c & _ & _ & _ & -> & ->)
                            | (n & t & r & _ & _ & -> & ->)]].
  - cbn [map]. now rewrite app_nil_r.
  - cbn [ui messages]. now rewrite map_app.
  - destruct (resume_cases t r (ui m)) as (msg & err & -> & _ & K).
    cbn [ui messages]. rewrite map_app. f_equal.
    destruct K as [(resp & _ & _ & -> & -> & _) | (x & -> & -> & _)];
      reflexivity.
Qed.

Lemma run_ids (events : list Event) :
  forall m : Machine,
  map id (messages (ui (run m events)))
  = map id (messages (ui m)) ++ map idOf (createdBy m events).
Proof.
  induction events as [|e events IH]; intros m; cbn [createdBy].
  - cbn. now rewrite app_nil_r.
  - change (run m (e :: events)) with (run (dispatch m e) events).
    rewrite IH, dispatch_ids, <- app_assoc, <- map_app.
    now destruct (created m e).
Qed.

Lemma mounted_messages
    (API_KEY : option jsstring) (construction : InitOutcome) :
  messages (ui (mounted API_KEY construction)) = []
  \/ messages (ui (mounted API_KEY construction)) = [initialMessage].
Proof.
  unfold mounted, initializeChat. cbn [ui].
  destruct (truthy_opt API_KEY); cbn [negb]; [destruct construction|]; auto.
Qed.

(** C9, amended. The id of a turn is the prefix of its kind, [user-],
    [model-] or [error-], followed by the decimal reading of [Date.now()]
    when it was built, and the id of the greeting is [initial-message]: the
    ids of the conversation are those of the mounted component followed by
    the ids of the turns the events built, in order. So, after any events,
    no two turns of the conversation have the same id exactly when no two
    turns of the same kind were built at the same clock reading. *)
Theorem ids_unique_iff_turn_stamps_differ
    (API_KEY : option jsstring) (construction : InitOutcome)
    (events : list Event) :
  let m0 := mounted API_KEY construction in
  let m := run m0 events in
  (map id (messages (ui m0)) = []
   \/ map id (messages (ui m0)) = [js "initial-message"])
  /\ map id (messages (ui m))
     = map id (messages (ui m0))
       ++ map (fun stamp => prefixOf (fst stamp)
                            ++ Number_toString (snd stamp))
              (createdBy m0 events)
  /\ (forall msg, In msg (messages (ui m)) ->
        id msg = js "initial-message"
        \/ exists t, id msg = js "user-" ++ Number_toString t
                     \/ id msg = js "model-" ++ Number_toString t
                     \/ id msg = js "error-" ++ Number_toString t)
  /\ (NoDup (map id (messages (ui m))) <-> NoDup (createdBy m0 events)).
Proof.
  intros m0 m.
  assert (P : map id (messages (ui m0)) = []
              \/ map id (messages (ui m0)) = [js "initial-message"]).
  { destruct (mounted_messages API_KEY construction) as [E | E];
      fold m0 in E; rewrite E; auto. }
  pose proof (run_ids events m0) as R. fold m in R.
  split; [exact P|]. split; [exact R|]. split.
  - intros msg I. apply (in_map id) in I. rewrite R, in_app_iff in I.
    destruct I as [I | I].
    + left. destruct P as [E | E]; rewrite E in I; [destruct I|].
      now destruct I as [<- | []].
    + right. apply in_map_iff in I. destruct I as [[[| |] t] [<- _]];
        exists t; unfold idOf; cbn [fst snd prefixOf]; auto.
  - rewrite R. now apply NoDup_ids.
Qed.

Lemma ids_unique_iff_turn_stamps_differ_witness :
  let events :=
    [Send (js "a") 5; Send (js "refused") 5; Render;
     Settle (Resolved (js "x")) 5; Render; Submit (js "  ") 5;
     Send (js "b") 6; Render;
     Settle (Rejected (ErrorInstance (js "timeout"))) 6] in
  createdBy readyMachine events
  = [(UserTurn, 5); (UserTurn, 5); (ModelTurn, 5); (UserTurn, 6);
     (ErrorTurn, 6)]
  /\ ~ NoDup (map id (messages (ui (run readyMachine events))))
  /\ NoDup (map id (messages (ui (run readyMachine
              [Send (js "a") 5; Render; Settle (Resolved (js "x")) 5;
               Render; Submit (js "  ") 5; Send (js "b") 6; Render;
               Settle (Rejected (ErrorInstance (js "timeout"))) 6])))).
Proof.
  intros events. split; [reflexivity|]. split.
  - destruct (ids_unique_iff_turn_stamps_differ sampleKey Constructed events)
      as (_ & _ & _ & [D _]).
    intros H. specialize (D H). vm_compute in D.
    inversion D as [|? ? N _]. apply N. now left.
  - apply (ids_unique_iff_turn_stamps_differ sampleKey Constructed).
    vm_compute.
    repeat (constructor;
            [intros I; cbn in I;
             repeat (destruct I as [I | I]; [discriminate I|]); exact I|]).
    constructor.
Defined.

(* ================================================================== *)
(** * Further properties of the code *)

(** ** What [trim] leaves *)

Section Trim.

Lemma trimStart_startsClean (s : jsstring) :
  startsClean (trimStart s) = true.
Proof.
  induction s as [|c s IH]; simpl; [reflexivity|].
  destruct (isWhiteSpace c) eqn:W; [exact IH | simpl; now rewrite W].
Qed.

Lemma trimStart_clean (s : jsstring) :
  startsClean s = true -> trimStart s = s.
Proof.
  destruct s as [|c s]; simpl; [reflexivity|].
  now destruct (isWhiteSpace c).
Qed.

Lemma trimStart_snoc (l : jsstring) (c : code_unit) :
  isWhiteSpace c = false -> trimStart (l ++ [c]) = trimStart l ++ [c].
Proof.
  intros W. induction l as [|a l IH]; simpl.
  - now rewrite W.
  - now destruct (isWhiteSpace a).
Qed.

Lemma trimEnd_endsClean (s : jsstring) : endsClean (trimEnd s) = true.
Proof.
  unfold endsClean, trimEnd. rewrite rev_involutive.
  apply trimStart_startsClean.
Qed.

Lemma trimEnd_startsClean (s : jsstring) :
  startsClean s = true -> startsClean (trimEnd s) = true.
Proof.
  destruct s as [|c s]; [reflexivity|]. simpl. intros W.
  apply negb_true_iff in W. unfold trimEnd. simpl rev.
  rewrite (@trimStart_snoc (rev s) c W), rev_app_distr. simpl. now rewrite W.
Qed.

Lemma trimEnd_split (s : jsstring) :
  exists post, s = trimEnd s ++ post /\ blank post = true.
Proof.
  destruct (trimStart_suffix (rev s)) as [q [E B]].
  exists (rev q). split; [|now rewrite blank_rev].
  unfold trimEnd. rewrite <- rev_app_distr, <- E. now rewrite rev_involutive.
Qed.

Lemma trim_startsClean (s : jsstring) : startsClean (trim s) = true.
Proof. apply trimEnd_startsClean, trimStart_startsClean. Qed.

Lemma trim_endsClean (s : jsstring) : endsClean (trim s) = true.
Proof. apply trimEnd_endsClean. Qed.

Lemma trim_clean (s : jsstring) :
  startsClean s = true -> endsClean s = true -> trim s = s.
Proof.
  intros A B. unfold trim. rewrite (trimStart_clean s A).
  unfold trimEnd. rewrite (trimStart_clean (rev s) B). apply rev_involutive.
Qed.

Lemma trim_idempotent (s : jsstring) : trim (trim s) = trim s.
Proof. apply trim_clean; [apply trim_startsClean | apply trim_endsClean]. Qed.

Lemma trim_split (s : jsstring) :
  exists pre post,
    s = pre ++ trim s ++ post /\ blank pre = true /\ blank post = true.
Proof.
  destruct (trimStart_suffix s) as [pre [E B]].
  destruct (trimEnd_split (trimStart s)) as [post [E' B']].
  exists pre, post. split; [|now split].
  unfold trim. now rewrite <- E', <- E.
Qed.

Lemma strictEq_eq (a b : jsstring) : strictEq a b = true <-> a = b.
Proof.
  revert b; induction a as [|x a IH]; intros [|y b]; simpl;
    try (split; [discriminate | discriminate]); [tauto|].
  rewrite andb_true_iff, N.eqb_eq, IH. split.
  - now intros [-> ->].
  - intros E. now injection E.
Qed.

End Trim.

(** ** The input box *)

Lemma handleSubmit_cases (typed : jsstring) :
  (blank typed = true /\ handleSubmit typed = (None, typed))
  \/ (blank typed = false /\ handleSubmit typed = (Some (trim typed), [])).
Proof.
  unfold handleSubmit. rewrite truthy_trim.
  destruct (blank typed); [now left | now right].
Qed.

(** Whenever [handleSubmit] calls [onSendMessage], the text it passes is
    the typed text without the white space at its two ends: it is not
    empty, neither begins nor ends with white space, trimming it again
    changes nothing, only white space was dropped, and the box is emptied. *)
Theorem submitted_text_is_trimmed (typed text : jsstring) :
  fst (handleSubmit typed) = Some text ->
  text <> []
  /\ startsClean text = true /\ endsClean text = true
  /\ trim text = text
  /\ (exists pre post,
        typed = pre ++ text ++ post
        /\ blank pre = true /\ blank post = true)
  /\ snd (handleSubmit typed) = [].
Proof.
  destruct (handleSubmit_cases typed) as [[B ->] | [B ->]]; simpl;
    [discriminate|].
  intros E. injection E as <-.
  split; [intros T; apply trim_nil_iff in T; congruence|].
  split; [apply trim_startsClean|]. split; [apply trim_endsClean|].
  split; [apply trim_idempotent|]. split; [apply trim_split | reflexivity].
Qed.

Lemma submitted_text_is_trimmed_witness :
  fst (handleSubmit (js "  hi there ")) = Some (js "hi there")
  /\ trim (js "hi there") = js "hi there"
  /\ snd (handleSubmit (js "  hi there ")) = [].
Proof.
  split; [reflexivity|].
  destruct (submitted_text_is_trimmed (js "  hi there ") eq_refl)
    as (_ & _ & _ & T & _ & C).
  split; [exact T | exact C].
Defined.

(** A submit of what a submit left in the box never sends: after a text
    was sent the box is empty, and a text that was not sent is blank. So
    submitting twice in a row issues at most one call. *)
Theorem second_submit_sends_nothing
    (typed : jsstring) (now now' : Z) (m : Machine) :
  fst (handleSubmit (snd (handleSubmit typed))) = None
  /\ dispatch (dispatch m (Submit typed now))
       (Submit (snd (handleSubmit typed)) now')
     = dispatch m (Submit typed now).
Proof.
  assert (N : fst (handleSubmit (snd (handleSubmit typed))) = None).
  { destruct (handleSubmit_cases typed) as [[B E] | [B E]]; rewrite E.
    - simpl snd. now rewrite E.
    - reflexivity. }
  split; [exact N|]. cbn [dispatch]. now rewrite N.
Qed.

(** With the ref as the render saw it, the prop [App] passes to
    [ChatInput] is the negation of the guard of the handler it passes. *)
Lemma prop_is_guard (m : Machine) :
  coherent m = true ->
  inputDisabled (rendered m)
  = negb (passes (isLoading (rendered m)) (ui m)).
Proof.
  unfold coherent, inputDisabled, passes. intros C. apply eqb_prop in C.
  now rewrite C, negb_involutive.
Qed.

(** The submit button tells what a submit does, as long as the ref is as
    the render saw it (it is only assigned before the mount is done). When
    the button is disabled (the render saw the component busy or without a
    session, or the box is blank) a submit leaves the component as it is;
    when it is enabled a submit appends the USER turn with the trimmed
    text, sets the busy flag, clears the banner and issues the exchange. *)
Theorem submit_acts_iff_button_enabled
    (typed : jsstring) (now : Z) (m : Machine) :
  coherent m = true ->
  (buttonDisabled (rendered m) typed = true ->
   dispatch m (Submit typed now) = m)
  /\ (buttonDisabled (rendered m) typed = false ->
      exists c,
        chatSessionRef (ui m) = Some c
        /\ dispatch m (Submit typed now)
           = {| ui := {| messages := messages (ui m)
                                     ++ [userMessageOf now (trim typed)];
                         isLoading := true; error := None;
                         chatSessionRef :=
                           Some (sendMessage (trim typed) c) |};
                rendered := rendered m;
                pending := S (pending m) |}).
Proof.
  intros Co. unfold buttonDisabled. rewrite (prop_is_guard m Co).
  rewrite truthy_trim, negb_involutive. cbn [dispatch].
  destruct (handleSubmit_cases typed) as [[B ->] | [B ->]]; rewrite B;
    cbn [fst].
  - split; [reflexivity | rewrite orb_true_r; discriminate].
  - rewrite orb_false_r.
    destruct (call_cases (trim typed) now m)
      as [[A E] | (A & c & _ & C & E)]; rewrite A; cbn [negb].
    + split; [now intros _ | discriminate].
    + split; [discriminate | intros _; now exists c].
Qed.

Lemma submit_acts_iff_button_enabled_witness :
  coherent readyMachine = true
  /\ buttonDisabled (rendered readyMachine) (js " hi ") = false
  /\ buttonDisabled (rendered readyMachine) (js "  ") = true
  /\ dispatch readyMachine (Submit (js "  ") 7) = readyMachine
  /\ map content (messages (ui (dispatch readyMachine (Submit (js " hi ") 7))))
     = [greetingText; js "hi"].
Proof.
  split; [reflexivity|]. split; [reflexivity|]. split; [reflexivity|].
  destruct (submit_acts_iff_button_enabled (js "  ") 7 readyMachine eq_refl)
    as [D _].
  destruct (submit_acts_iff_button_enabled (js " hi ") 7 readyMachine eq_refl)
    as [_ E].
  split; [apply D; reflexivity|].
  destruct (E eq_refl) as (c & _ & ->). reflexivity.
Defined.

(** The [ChatInput] of components/ChatInput.tsx, given the prop [App]
    passes, does to the component exactly what the [ChatInput] of App.tsx
    does, as long as the ref is as the render saw it: its own test of
    [isLoading] repeats the guard of [handleSendMessage]. The two differ in
    the box only: on a disabled component the first keeps a non-blank text,
    the second empties the box although nothing is sent. *)
Theorem both_inputs_act_alike (typed : jsstring) (now : Z) (m : Machine) :
  coherent m = true ->
  deliver (fst (Components.handleSubmit (inputDisabled (rendered m)) typed))
    now m
  = dispatch m (Submit typed now)
  /\ (inputDisabled (rendered m) = true -> blank typed = false ->
      snd (Components.handleSubmit (inputDisabled (rendered m)) typed)
      = typed
      /\ snd (handleSubmit typed) = []
      /\ dispatch m (Submit typed now) = m).
Proof.
  intros Co. rewrite (prop_is_guard m Co).
  cbn [dispatch]. unfold Components.handleSubmit. rewrite truthy_trim.
  destruct (handleSubmit_cases typed) as [[B ->] | [B ->]]; rewrite B;
    cbn [fst snd negb andb].
  - split; [reflexivity | discriminate].
  - destruct (call_cases (trim typed) now m)
      as [[A E] | (A & c & _ & C & E)]; rewrite A; cbn [negb fst snd deliver].
    + split; [now rewrite E | intros _ _; now rewrite E].
    + split; [reflexivity | discriminate].
Qed.

Lemma both_inputs_act_alike_witness :
  coherent brokenMachine = true
  /\ inputDisabled (rendered brokenMachine) = true
  /\ blank (js "hi") = false
  /\ snd (Components.handleSubmit true (js "hi")) = js "hi"
  /\ snd (handleSubmit (js "hi")) = []
  /\ dispatch brokenMachine (Submit (js "hi") 7) = brokenMachine.
Proof.
  split; [reflexivity|]. split; [reflexivity|]. split; [reflexivity|].
  destruct (both_inputs_act_alike (js "hi") 7 brokenMachine eq_refl)
    as [_ H].
  destruct (H eq_refl eq_refl) as (A & B & C).
  split; [exact A|]. split; [exact B | exact C].
Defined.


(** A key press in the text area of components/ChatInput.tsx sends a text
    exactly when the key is Enter, Shift is not held, the component is not
    loading and the box is not blank; the text sent is then the trimmed
    box. The default action of the key is suppressed exactly for Enter
    without Shift, and when nothing is sent the box keeps its text. *)
Theorem keydown_sends_iff
    (key : jsstring) (shiftKey isLoading : bool) (input text : jsstring) :
  let h := Components.handleKeyDown key shiftKey isLoading input in
  (sent h = Some text
   <-> key = js "Enter" /\ shiftKey = false /\ isLoading = false
       /\ blank input = false /\ text = trim input)
  /\ (defaultPrevented h = true <-> key = js "Enter" /\ shiftKey = false)
  /\ (sent h = None -> nextInput h = input).
Proof.
  cbv zeta. unfold Components.handleKeyDown, Components.handleSubmit.
  rewrite truthy_trim.
  destruct (strictEq key (js "Enter")) eqn:K.
  - apply strictEq_eq in K.
    destruct shiftKey, isLoading, (blank input); cbn;
      intuition (discriminate || congruence).
  - assert (N : key <> js "Enter").
    { intros E. apply strictEq_eq in E. congruence. }
    cbn. split; [split; [discriminate | tauto]|].
    split; [split; [discriminate | tauto] | reflexivity].
Qed.

(** ** Initialization that throws *)

(** When the credential is present but the construction of the session
    throws, the mounted component has an empty conversation and no session,
    is not loading, and shows the initialization error with the message of
    the thrown error (or the stand-in text for a value that is no [Error]);
    the submit button stays disabled and no sequence of events changes the
    component. *)
Theorem construction_failure_is_fatal
    (API_KEY : option jsstring) (e : Thrown) :
  truthy_opt API_KEY = true ->
  let m := mounted API_KEY (ConstructionThrew e) in
  let errorMessage :=
    errorMessageOf (js "An unknown error occurred during initialization.") e in
  messages (ui m) = []
  /\ chatSessionRef (ui m) = None
  /\ isLoading (ui m) = false
  /\ error (ui m)
     = Some (js "Failed to initialize the chatbot. Please check your API key and setup."
             ++ [LF; LF] ++ js "Error: " ++ errorMessage)
  /\ showError (ui m) = true
  /\ readiness (ui m) = INIT_FAILED
  /\ (forall typed, buttonDisabled (ui m) typed = true)
  /\ (forall events, run m events = m).
Proof.
  intros K m errorMessage.
  assert (E : ui m = {| messages := []; isLoading := false;
                        error := Some (initFailedText errorMessage);
                        chatSessionRef := None |}).
  { unfold m, mounted, initializeChat. simpl ui. now rewrite K. }
  rewrite E. do 6 (split; [reflexivity|]). split.
  - intros typed. reflexivity.
  - intros events. apply run_rejected; [now rewrite E | reflexivity..].
Qed.

Lemma construction_failure_is_fatal_witness :
  truthy_opt sampleKey = true
  /\ messages (ui brokenMachine) = []
  /\ Contains (js "bad key") (initFailedText (js "bad key"))
  /\ error (ui brokenMachine) = Some (initFailedText (js "bad key"))
  /\ run brokenMachine [Send (js "hello") 3] = brokenMachine.
Proof.
  split; [reflexivity|].
  pose proof (construction_failure_is_fatal sampleKey
                (ErrorInstance (js "bad key")) eq_refl) as H.
  cbv zeta in H. destruct H as (M & _ & _ & E & _ & _ & _ & R).
  split; [exact M|]. split.
  - unfold initFailedText. rewrite !app_assoc.
    exists ((js "Failed to initialize the chatbot. Please check your API key and setup."
             ++ [LF; LF]) ++ js "Error: "), []. now rewrite app_nil_r.
  - split; [exact E | apply R].
Defined.

Lemma keydown_sends_iff_witness :
  sent (Components.handleKeyDown (js "Enter") false false (js " hi "))
  = Some (js "hi")
  /\ sent (Components.handleKeyDown (js "Enter") true false (js " hi "))
     = None
  /\ nextInput (Components.handleKeyDown (js "Enter") true false (js " hi "))
     = js " hi ".
Proof.
  destruct (keydown_sends_iff (js "Enter") false false (js " hi ") (js "hi"))
    as ([_ S] & _).
  destruct (keydown_sends_iff (js "Enter") true false (js " hi ") (js "hi"))
    as (_ & _ & N).
  split; [apply S; now repeat split|]. split; [reflexivity|].
  apply N. reflexivity.
Defined.

(** ** Invariants of the mounted component *)

Lemma consistent_dispatch (m : Machine) (e : Event) :
  consistent m -> consistent (dispatch m e).
Proof.
  intros (G1 & G2 & G3 & G4 & G5 & G6).
  destruct (dispatch_cases m e)
    as [(Eu & Ep & Er & _) | [(u & t & c & _ & L & C & _ & ->)
                             | (n & t & r & _ & P & _ & ->)]].
  - unfold consistent, coherent. rewrite Eu, Ep.
    do 5 (split; [assumption|]).
    destruct Er as [-> | ->]; [exact G6 | apply eqb_reflx].
  - unfold consistent, coherent, outbound, hasSession in *.
    rewrite C in *.
    cbn [ui rendered pending messages isLoading error chatSessionRef
         sendMessage requests].
    split; [lia|]. split; [discriminate|]. split; [|split; [|split]].
    + intros _. destruct G3 as [rest R]; [discriminate|].
      exists (rest ++ [userMessageOf t u]). now rewrite R.
    + rewrite filter_app, map_app, <- G4. reflexivity.
    + discriminate.
    + exact G6.
  - destruct (resume_cases t r (ui m)) as (msg & err & -> & Ro & K).
    unfold consistent, coherent, outbound, hasSession in *.
    cbn [ui rendered pending messages isLoading error chatSessionRef].
    split; [discriminate|]. split; [discriminate|]. split; [|split; [|split]].
    + intros S. destruct (G3 S) as [rest R].
      exists (rest ++ [msg]). now rewrite R.
    + rewrite filter_app, map_app, <- G4. cbn [filter]. unfold isUser.
      rewrite Ro. cbn [map]. now rewrite app_nil_r.
    + intros b B. split; [|reflexivity].
      destruct K as [(resp & _ & _ & _ & _ & ->) | (x & _ & _ & ->)].
      * now destruct (G5 b B).
      * now injection B as <-.
    + exact G6.
Qed.

Lemma consistent_mounted
    (API_KEY : option jsstring) (construction : InitOutcome) :
  consistent (mounted API_KEY construction).
Proof.
  unfold consistent, coherent, mounted, initializeChat, outbound.
  cbn [ui rendered pending].
  destruct (truthy_opt API_KEY); cbn [negb];
    [destruct construction|];
    cbn [messages isLoading error chatSessionRef setMessages setIsLoading
         setError setChatSession initialState];
    (split; [discriminate|]); (split; [discriminate|]);
    (split; [first [now exists [] | intros N; now destruct N]|]);
    (split; [reflexivity|]);
    (split; [|reflexivity]);
    intros b B; try discriminate; injection B as <-; now split.
Qed.

Lemma run_consistent
    (API_KEY : option jsstring) (construction : InitOutcome)
    (events : list Event) :
  consistent (run (mounted API_KEY construction) events).
Proof.
  apply (run_invariant consistent consistent_dispatch), consistent_mounted.
Qed.

Lemma run_upToDate (P : Machine -> Prop) :
  (forall m e, P m -> (isCall e = true -> fresh m = true) ->
               P (dispatch m e)) ->
  forall events m, P m -> upToDate m events = true -> P (run m events).
Proof.
  intros Step events. unfold run.
  induction events as [|e events IH]; intros m H U; cbn [fold_left];
    [exact H|].
  cbn [upToDate] in U. apply andb_true_iff in U. destruct U as [F U].
  apply IH; [|exact U]. apply Step; [exact H|].
  intros C. rewrite C in F. exact F.
Qed.

Lemma orderly_dispatch (m : Machine) (e : Event) :
  orderly m -> (isCall e = true -> fresh m = true) -> orderly (dispatch m e).
Proof.
  unfold orderly. intros O F.
  destruct (dispatch_cases m e)
    as [(Eu & Ep & _) | [(u & t & c & Ce & L & C & _ & ->)
                        | (n & t & r & _ & P & _ & ->)]].
  - now rewrite Eu, Ep.
  - cbn [ui pending isLoading]. specialize (F Ce). unfold fresh in F.
    apply eqb_prop in F. rewrite <- F, L in O. now rewrite O.
  - destruct (resume_cases t r (ui m)) as (msg & err & -> & _).
    cbn [ui pending isLoading]. rewrite P in O.
    destruct (isLoading (ui m)); [now injection O | discriminate].
Qed.

Lemma run_orderly
    (API_KEY : option jsstring) (construction : InitOutcome)
    (events : list Event) :
  upToDate (mounted API_KEY construction) events = true ->
  orderly (run (mounted API_KEY construction) events).
Proof.
  apply (run_upToDate orderly orderly_dispatch).
  unfold orderly, mounted, initializeChat. cbn [ui pending].
  destruct (truthy_opt API_KEY); cbn [negb]; [destruct construction|];
    reflexivity.
Qed.

Lemma rounds_snoc (k : nat) : rounds k ++ [USER; MODEL] = rounds (S k).
Proof.
  induction k as [|k IH]; [reflexivity|].
  change (rounds (S k)) with (USER :: MODEL :: rounds k).
  cbn [app]. now rewrite IH.
Qed.

Lemma ready_dispatch (m : Machine) (e : Event) :
  ready m -> (isCall e = true -> fresh m = true) -> ready (dispatch m e).
Proof.
  intros (H & O & S & Ro & Ba) F.
  pose proof (consistent_dispatch e H) as H'.
  pose proof (orderly_dispatch e O F) as O'.
  split; [exact H'|]. split; [exact O'|]. clear H' O'.
  destruct (dispatch_cases m e)
    as [(Eu & _) | [(u & t & c & Ce & L & C & _ & ->)
                   | (n & t & r & _ & P & _ & ->)]].
  - rewrite Eu. auto.
  - cbn [ui messages isLoading error chatSessionRef].
    split; [discriminate|]. split; [|discriminate].
    specialize (F Ce). unfold fresh in F. apply eqb_prop in F.
    destruct Ro as [k Ro]. exists k. rewrite <- F, L in Ro.
    rewrite map_app, Ro, app_nil_r. reflexivity.
  - unfold orderly in O. rewrite P in O.
    destruct (isLoading (ui m)) eqn:L; [|discriminate].
    destruct (resume_cases t r (ui m)) as (msg & err & -> & Rm & K).
    cbn [ui messages isLoading error chatSessionRef].
    split; [exact S|]. split.
    + destruct Ro as [k Ro]. exists (Datatypes.S k).
      rewrite map_app, Ro. cbn [map]. rewrite Rm, app_nil_r.
      rewrite <- rounds_snoc, <- app_comm_cons, <- app_assoc. reflexivity.
    + intros b B.
      destruct K as [(resp & _ & _ & _ & _ & ->) | (x & _ & -> & ->)].
      * destruct H as (_ & _ & _ & _ & G5 & _).
        destruct (G5 b B) as [_ Lf]. congruence.
      * injection B as <-. now exists (messages (ui m)), t, x.
Qed.

Lemma ready_mounted (API_KEY : option jsstring) :
  truthy_opt API_KEY = true -> ready (mounted API_KEY Constructed).
Proof.
  intros K. split; [apply consistent_mounted|].
  unfold orderly, mounted. cbn [ui pending].
  rewrite (initializeChat_constructed API_KEY initialState K).
  cbn [messages isLoading error chatSessionRef].
  split; [reflexivity|]. split; [discriminate|].
  split; [now exists 0%nat | discriminate].
Qed.

Lemma run_ready (API_KEY : option jsstring) (events : list Event) :
  truthy_opt API_KEY = true ->
  upToDate (mounted API_KEY Constructed) events = true ->
  ready (run (mounted API_KEY Constructed) events).
Proof.
  intros K. apply (run_upToDate ready ready_dispatch), ready_mounted, K.
Qed.

Lemma run_session (m : Machine) (events : list Event) :
  hasSession (ui (run m events)) = hasSession (ui m).
Proof.
  apply (run_invariant (fun m' => hasSession (ui m') = hasSession (ui m)));
    [|reflexivity].
  intros m' e <-.
  destruct (dispatch_cases m' e)
    as [(-> & _) | [(u & t & c & _ & _ & C & _ & ->)
                   | (n & t & r & _ & _ & _ & ->)]];
    [reflexivity | |].
  - unfold hasSession. cbn [ui chatSessionRef]. now rewrite C.
  - destruct (resume_cases t r (ui m')) as (msg & err & -> & _).
    reflexivity.
Qed.

(** Events only ever append to the conversation: whatever the state and the
    events, the earlier turns stay where they are, unchanged, and the
    session is neither dropped nor created. *)
Theorem conversation_only_grows (m : Machine) (events : list Event) :
  (exists suffix,
     messages (ui (run m events)) = messages (ui m) ++ suffix)
  /\ (chatSessionRef (ui (run m events)) = None
      <-> chatSessionRef (ui m) = None).
Proof.
  split.
  - apply (run_invariant
             (fun m' => exists suffix,
                          messages (ui m') = messages (ui m) ++ suffix));
      [|exists []; now rewrite app_nil_r].
    intros m' e [suffix E].
    destruct (dispatch_cases m' e)
      as [(-> & _) | [(u & t & c & _ & _ & C & _ & ->)
                     | (n & t & r & _ & _ & _ & ->)]].
    + now exists suffix.
    + cbn [ui messages]. exists (suffix ++ [userMessageOf t u]).
      now rewrite E, app_assoc.
    + destruct (resume_cases t r (ui m')) as (msg & err & -> & _).
      cbn [ui messages]. exists (suffix ++ [msg]). now rewrite E, app_assoc.
  - pose proof (run_session m events) as S. unfold hasSession in S.
    destruct (chatSessionRef (ui (run m events))),
             (chatSessionRef (ui m)); try discriminate;
      split; congruence.
Qed.

(** While every call goes through an up-to-date handler, at most one
    exchange is awaited, and one is awaited exactly while the busy flag is
    set. Without that proviso the busy flag still implies an awaited
    exchange, but a handler called again before the next render starts a
    second one. *)
Theorem at_most_one_exchange_awaited
    (API_KEY : option jsstring) (construction : InitOutcome)
    (events : list Event) :
  let m := run (mounted API_KEY construction) events in
  (isLoading (ui m) = true -> (1 <= pending m)%nat)
  /\ (upToDate (mounted API_KEY construction) events = true ->
      (pending m <= 1)%nat
      /\ (pending m = 1%nat <-> isLoading (ui m) = true)).
Proof.
  intros m. split.
  - now destruct (run_consistent API_KEY construction events) as (G1 & _).
  - intros U. pose proof (run_orderly API_KEY construction events U) as O.
    unfold orderly in O. fold m in O. rewrite O.
    destruct (isLoading (ui m)); split; try lia; split; congruence.
Qed.

Lemma at_most_one_exchange_awaited_witness :
  let events := [Send (js "a") 1; Render; Send (js "b") 2;
                 Settle (Resolved (js "x")) 3; Render; Send (js "c") 4] in
  upToDate readyMachine events = true
  /\ upToDate readyMachine [Send (js "a") 1; Send (js "b") 2] = false
  /\ pending (run readyMachine events) = 1%nat
  /\ pending (run readyMachine [Send (js "a") 1; Send (js "b") 2]) = 2%nat.
Proof.
  intros events. split; [reflexivity|]. split; [reflexivity|].
  destruct (at_most_one_exchange_awaited sampleKey Constructed events)
    as (_ & U). destruct (U eq_refl) as (_ & [_ P]).
  split; [apply P; reflexivity | reflexivity].
Defined.

(** The texts passed to the session's [sendMessage] are, in order, the
    texts of the USER turns of the conversation: nothing is sent that is
    not shown, and nothing shown as sent was not sent. *)
Theorem requests_are_the_user_turns
    (API_KEY : option jsstring) (construction : InitOutcome)
    (events : list Event) :
  let m := run (mounted API_KEY construction) events in
  outbound (ui m) = map content (filter isUser (messages (ui m))).
Proof.
  intros m. now destruct (run_consistent API_KEY construction events)
    as (_ & _ & _ & G4 & _).
Qed.

(** Whenever the component holds an error, the error panel is rendered
    (the text is not empty), the component is idle and the thinking
    indicator is not rendered. *)
Theorem error_is_always_shown
    (API_KEY : option jsstring) (construction : InitOutcome)
    (events : list Event) (b : jsstring) :
  let m := run (mounted API_KEY construction) events in
  error (ui m) = Some b ->
  showError (ui m) = true /\ isLoading (ui m) = false
  /\ showThinking (ui m) = false.
Proof.
  intros m B. destruct (run_consistent API_KEY construction events)
    as (_ & _ & _ & _ & G5 & _). fold m in G5.
  destruct (G5 b B) as [T L]. unfold showError, showThinking.
  rewrite B, L. now split.
Qed.

Lemma error_is_always_shown_witness :
  let m := run readyMachine
             [Send (js "trigger failure") 7;
              Settle (Rejected (ErrorInstance (js "timeout"))) 9] in
  error (ui m) = Some (js "API Error: timeout")
  /\ showError (ui m) = true /\ showThinking (ui m) = false.
Proof.
  intros m. split; [reflexivity|].
  destruct (error_is_always_shown sampleKey Constructed
              [Send (js "trigger failure") 7;
               Settle (Rejected (ErrorInstance (js "timeout"))) 9]
              (b := js "API Error: timeout") eq_refl) as (S & _ & T).
  split; [exact S | exact T].
Defined.

(** The busy flag is never set on an empty conversation once the component
    is mounted, so the thinking indicator is rendered exactly when the flag
    is set; while every call goes through an up-to-date handler, that is
    exactly while an exchange is awaited. *)
Theorem thinking_indicator_iff_awaiting
    (API_KEY : option jsstring) (construction : InitOutcome)
    (events : list Event) :
  let m := run (mounted API_KEY construction) events in
  showThinking (ui m) = isLoading (ui m)
  /\ (upToDate (mounted API_KEY construction) events = true ->
      (showThinking (ui m) = true <-> pending m = 1%nat)).
Proof.
  intros m. destruct (run_consistent API_KEY construction events)
    as (_ & G2 & G3 & _). fold m in G2, G3.
  assert (T : showThinking (ui m) = isLoading (ui m)).
  { unfold showThinking. destruct (isLoading (ui m)); [|reflexivity].
    destruct (G3 (G2 eq_refl)) as [rest ->]. reflexivity. }
  split; [exact T|]. intros U.
  pose proof (run_orderly API_KEY construction events U) as O.
  unfold orderly in O. fold m in O. rewrite T, O.
  destruct (isLoading (ui m)); split; congruence.
Qed.

Lemma thinking_indicator_iff_awaiting_witness :
  upToDate readyMachine [Send (js "a") 1; Render] = true
  /\ showThinking (ui (run readyMachine [Send (js "a") 1; Render])) = true
  /\ showThinking initialState = false.
Proof.
  split; [reflexivity|].
  destruct (thinking_indicator_iff_awaiting sampleKey Constructed
              [Send (js "a") 1; Render]) as (_ & U).
  split; [apply (U eq_refl); reflexivity | reflexivity].
Defined.

(** The state of the session is settled by the mount: after any events the
    component is READY if the credential was present and the construction
    did not throw, and INIT_FAILED otherwise. *)
Theorem readiness_is_settled_at_mount
    (API_KEY : option jsstring) (construction : InitOutcome)
    (events : list Event) :
  readiness (ui (run (mounted API_KEY construction) events))
  = match construction with
    | Constructed => if truthy_opt API_KEY then READY else INIT_FAILED
    | ConstructionThrew _ => INIT_FAILED
    end.
Proof.
  destruct (truthy_opt API_KEY) eqn:K.
  - destruct construction as [|e].
    + pose proof (run_session (mounted API_KEY Constructed) events) as S.
      unfold mounted at 2 in S. cbn [ui] in S.
      rewrite (initializeChat_constructed API_KEY initialState K) in S.
      unfold readiness, hasSession in *.
      now destruct (chatSessionRef
                      (ui (run (mounted API_KEY Constructed) events))).
    + rewrite run_rejected; try reflexivity;
        unfold mounted, initializeChat; cbn [ui]; now rewrite K.
  - assert (E : run (mounted API_KEY construction) events
                = mounted API_KEY construction).
    { apply run_rejected; try reflexivity.
      unfold mounted, initializeChat; cbn [ui]; now rewrite K. }
    rewrite E. unfold mounted, initializeChat. cbn [ui]. rewrite K.
    now destruct construction.
Qed.

(** After a successful mount and any events in which every call goes
    through an up-to-date handler (sends accepted or refused, blank
    submits, replies, failures and renders), the conversation begins with
    the greeting and its roles are USER and ASSISTANT in turn after it,
    with one more USER turn exactly while a reply is awaited: every
    exchange that settled left exactly one ASSISTANT turn after its USER
    turn. *)
Theorem roles_alternate_after_every_event
    (API_KEY : option jsstring) (events : list Event) :
  truthy_opt API_KEY = true ->
  upToDate (mounted API_KEY Constructed) events = true ->
  let m := run (mounted API_KEY Constructed) events in
  exists k rest,
    messages (ui m) = initialMessage :: rest
    /\ map role (messages (ui m))
       = MODEL :: rounds k ++ (if isLoading (ui m) then [USER] else []).
Proof.
  intros K U m. destruct (run_ready API_KEY events K U)
    as ((_ & _ & G3 & _) & _ & S & [k Ro] & _). fold m in G3, S, Ro.
  destruct (G3 S) as [rest R]. now exists k, rest.
Qed.

Lemma roles_alternate_after_every_event_witness :
  let events :=
    [Send (js "a") 1; Render; Send (js "refused") 2;
     Settle (Rejected ThrownOther) 3; Render; Submit (js "  ") 4;
     Submit (js " b ") 5] in
  truthy_opt sampleKey = true
  /\ upToDate readyMachine events = true
  /\ let m := run readyMachine events in
     isLoading (ui m) = true
     /\ exists k, map role (messages (ui m)) = MODEL :: rounds k ++ [USER].
Proof.
  intros events. split; [reflexivity|]. split; [reflexivity|].
  destruct (roles_alternate_after_every_event sampleKey events
              eq_refl eq_refl) as (k & rest & _ & R).
  cbv zeta. split; [reflexivity|]. exists k. exact R.
Defined.

(** After a successful mount and events in which every call goes through
    an up-to-date handler, whenever the banner holds an error, the last
    turn of the conversation is the error turn of the exchange that failed
    and the banner repeats its error text after ["API Error: "]. *)
Theorem banner_repeats_last_error_turn
    (API_KEY : option jsstring) (events : list Event) (b : jsstring) :
  truthy_opt API_KEY = true ->
  upToDate (mounted API_KEY Constructed) events = true ->
  let m := run (mounted API_KEY Constructed) events in
  error (ui m) = Some b ->
  exists earlier t msg,
    messages (ui m)
    = earlier ++ [ {| id := js "error-" ++ Number_toString t;
                      role := MODEL;
                      content := errorContent msg |} ]
    /\ b = js "API Error: " ++ msg.
Proof.
  intros K U m B. destruct (run_ready API_KEY events K U)
    as (_ & _ & _ & _ & Ba). exact (Ba b B).
Qed.

Lemma banner_repeats_last_error_turn_witness :
  let events :=
    [Send (js "trigger failure") 7; Render;
     Settle (Rejected (ErrorInstance (js "timeout"))) 9; Render] in
  truthy_opt sampleKey = true
  /\ upToDate readyMachine events = true
  /\ let m := run readyMachine events in
     error (ui m) = Some (js "API Error: timeout")
     /\ exists earlier t msg,
          messages (ui m)
          = earlier ++ [errorResponseMessageOf t msg]
          /\ js "API Error: timeout" = js "API Error: " ++ msg.
Proof.
  intros events. split; [reflexivity|]. split; [reflexivity|].
  cbv zeta. split; [reflexivity|].
  exact (banner_repeats_last_error_turn sampleKey events
           (b := js "API Error: timeout") eq_refl eq_refl eq_refl).
Defined.

(** After a successful mount the prop that disables the input is the busy
    flag, and the thinking indicator shows with it; while every call goes
    through an up-to-date handler, the flag is set exactly while an
    exchange is awaited, and a component that awaits none, once rendered,
    passes the next text through its guard. *)
Theorem input_disabled_iff_awaiting
    (API_KEY : option jsstring) (events : list Event) :
  truthy_opt API_KEY = true ->
  let m := run (mounted API_KEY Constructed) events in
  inputDisabled (ui m) = isLoading (ui m)
  /\ (upToDate (mounted API_KEY Constructed) events = true ->
      (inputDisabled (ui m) = true <-> pending m = 1%nat)
      /\ (pending m = 0%nat <-> accepting (ui m) = true)).
Proof.
  intros K m.
  assert (D : inputDisabled (ui m) = isLoading (ui m)).
  { pose proof (run_session (mounted API_KEY Constructed) events) as S.
    fold m in S. unfold mounted in S. cbn [ui] in S.
    rewrite (initializeChat_constructed API_KEY initialState K) in S.
    unfold inputDisabled. rewrite S. apply orb_false_r. }
  split; [exact D|]. intros U.
  pose proof (run_orderly API_KEY Constructed events U) as O.
  unfold orderly in O. fold m in O.
  unfold accepting. rewrite D, O.
  destruct (isLoading (ui m)); cbn [negb]; repeat split; congruence.
Qed.

Lemma input_disabled_iff_awaiting_witness :
  truthy_opt sampleKey = true
  /\ upToDate readyMachine [Send (js "a") 1; Render] = true
  /\ inputDisabled (ui (run readyMachine [Send (js "a") 1; Render])) = true
  /\ inputDisabled
       (ui (run readyMachine
              [Send (js "a") 1; Render; Settle (Resolved []) 2; Render]))
     = false.
Proof.
  split; [reflexivity|]. split; [reflexivity|].
  destruct (input_disabled_iff_awaiting sampleKey [Send (js "a") 1; Render]
              eq_refl) as (_ & U).
  destruct (U eq_refl) as ([_ A] & _).
  destruct (input_disabled_iff_awaiting sampleKey
              [Send (js "a") 1; Render; Settle (Resolved []) 2; Render]
              eq_refl) as (B & _).
  split; [apply A; reflexivity | exact (eq_trans B eq_refl)].
Defined.

(** ** A whole exchange *)

(** Whatever the outcome of the exchange, a whole run of a handler that
    passes its guard issues exactly one exchange, appends exactly two
    turns, the USER turn and one ASSISTANT turn, and ends idle and, once
    rendered, ready for the next text; the banner is empty exactly when the
    exchange succeeded. *)
Theorem every_exchange_ends_idle
    (captured : bool) (s : AppState) (userInput : jsstring)
    (sentAt repliedAt : Z) (r : Outcome) :
  passes captured s = true ->
  let s' := handleSendMessage captured sentAt repliedAt r userInput s in
  (exists replyTurn,
     messages s' = messages s ++ [userMessageOf sentAt userInput; replyTurn]
     /\ role replyTurn = MODEL)
  /\ outbound s' = outbound s ++ [userInput]
  /\ isLoading s' = false
  /\ accepting s' = true
  /\ (error s' = None <-> failureText r = None).
Proof.
  intros A s'. destruct (passes_inv captured s A) as [-> [c C]].
  unfold s'. rewrite (handleSendMessage_accepted s userInput sentAt
                        repliedAt r C).
  match goal with |- context [handleSendMessage_resume _ _ ?x] =>
    destruct (resume_cases repliedAt r x) as (msg & err & -> & Ro & K)
  end.
  unfold accepting, inputDisabled, hasSession, outbound. rewrite C.
  cbn [messages isLoading error chatSessionRef sendMessage requests].
  split; [exists msg; now rewrite <- app_assoc|].
  do 3 (split; [reflexivity|]).
  destruct K as [(resp & -> & T & _ & _ & ->) | (t & F & _ & ->)].
  - destruct resp; [discriminate | now split].
  - rewrite F. split; discriminate.
Qed.

Lemma every_exchange_ends_idle_witness :
  passes (isLoading readyState) readyState = true
  /\ accepting failedOnceState = true
  /\ isLoading failedOnceState = false
  /\ outbound failedOnceState = [js "trigger failure"].
Proof.
  split; [reflexivity|].
  pose proof (every_exchange_ends_idle false readyState
                (js "trigger failure") 7 9
                (Rejected (ErrorInstance (js "timeout"))) eq_refl) as H.
  cbv zeta in H. destruct H as (_ & O & L & A & _).
  split; [exact A|]. split; [exact L | exact O].
Defined.

(** When the exchange returns a non-empty reply, the ASSISTANT turn holds
    the reply without the white space at its two ends: only white space was
    dropped, the text neither begins nor ends with white space, and no
    error is set. The emptiness test comes before the trimming, so the turn
    is empty exactly when the reply held nothing but white space. *)
Theorem reply_turn_is_trimmed
    (captured : bool) (s : AppState) (userInput reply : jsstring)
    (sentAt repliedAt : Z) :
  passes captured s = true -> truthy reply = true ->
  let s' := handleSendMessage captured sentAt repliedAt (Resolved reply)
              userInput s in
  let replyTurn :=
    {| id := js "model-" ++ Number_toString repliedAt; role := MODEL;
       content := trim reply |} in
  messages s' = messages s ++ [userMessageOf sentAt userInput; replyTurn]
  /\ error s' = None
  /\ startsClean (content replyTurn) = true
  /\ endsClean (content replyTurn) = true
  /\ (exists pre post,
        reply = pre ++ content replyTurn ++ post
        /\ blank pre = true /\ blank post = true)
  /\ (content replyTurn = [] <-> blank reply = true).
Proof.
  intros A T s' replyTurn. destruct (passes_inv captured s A) as [-> [c C]].
  unfold s'. rewrite (handleSendMessage_accepted s userInput sentAt
                        repliedAt (Resolved reply) C).
  rewrite (resume_success _ repliedAt reply T).
  cbn [messages error content replyTurn].
  split; [now rewrite <- app_assoc|]. split; [reflexivity|].
  split; [apply trim_startsClean|]. split; [apply trim_endsClean|].
  split; [apply trim_split | apply trim_nil_iff].
Qed.

Lemma reply_turn_is_trimmed_witness :
  passes (isLoading readyState) readyState = true
  /\ truthy (js " 4 ") = true /\ truthy (js "  ") = true
  /\ map content
       (messages (handleSendMessage false 7 9 (Resolved (js " 4 "))
                    (js "2+2?") readyState))
     = [greetingText; js "2+2?"; js "4"]
  /\ map content
       (messages (handleSendMessage false 7 9 (Resolved (js "  "))
                    (js "2+2?") readyState))
     = [greetingText; js "2+2?"; []].
Proof.
  split; [reflexivity|]. split; [reflexivity|]. split; [reflexivity|].
  pose proof (reply_turn_is_trimmed false readyState (js "2+2?") (js " 4 ")
                7 9 eq_refl eq_refl) as H.
  pose proof (reply_turn_is_trimmed false readyState (js "2+2?") (js "  ")
                7 9 eq_refl eq_refl) as H'.
  cbv zeta in H, H'. destruct H as (M & _). destruct H' as (M' & _).
  split; [now rewrite M | now rewrite M'].
Defined.
